(** * Awesome App: the task bulletin of [src/main.py]

    A shallow embedding of the FastAPI service of [src/main.py]: the
    [ConnectionManager] class (connect, disconnect, broadcast), the REST
    handlers [get_tasks] and [add_task], and the websocket handler
    [websocket_endpoint], followed by the properties of the specification
    that concern them.

    Conventions of the embedding.
    - A Python [str] is a [string]; one [ascii] stands for one code point
      in U+0000..U+00FF.  The builtins the source calls on strings
      ([startswith], slicing, [strip], [str] of an [int], the [repr] of a
      [dict] of strings used by the f-strings) are written out in module
      [Py] for these code points.
    - A [WebSocket] object is its identity (a [nat]): Starlette compares
      connections by identity, and [in] and [list.remove] use that
      comparison.
    - The two module globals [tasks] and [manager.active_connections] are the
      fields of [State]; every function of the source is a computation in
      the monad [M], which threads the state and a possible exception.
      State changes made before an exception is raised persist, as in
      Python.
    - The transport is a parameter [net : Net]: [net ws = true] when a frame
      sent to [ws] is taken by the channel, [false] when the channel is
      closed or broken, which Starlette reports by raising
      [WebSocketDisconnect] from [send_text].  The text frames a handler
      receives are its [inbox]; the end of a channel is the item
      [Disconnect], for which [receive_text] raises [WebSocketDisconnect].
    - [trace] is a log kept by the embedding: it records, in program order,
      every send attempted on a channel, every change of the registry and
      every append to the store.
    - Execution is sequential: a handler runs from one receive to the next
      without other handlers running in between.
    - The handlers are embedded twice.  The first embedding takes the
      Starlette calls at their documented outcomes: [accept] succeeds,
      [send_text] sends or raises [WebSocketDisconnect], [receive_text]
      gives a text or raises [WebSocketDisconnect].  The second one, modules
      [Starlette] and [Service], follows [starlette/websockets.py]: every
      socket carries its [client_state] and [application_state], and a call
      on a socket in the wrong state raises [RuntimeError], a frame without
      text raises [KeyError].  The properties about the text protocol, the
      store and the REST handlers are stated over the first; those about
      failed sends, disconnects and double registration are stated over the
      second, and the two are shown to agree in the worlds the server keeps
      (registry without duplicates, registered sockets connected). *)

From Stdlib Require Import List String Ascii Arith Lia Bool DecimalString.
From Stdlib Require DecimalNat DecimalFacts.
Import ListNotations.
Local Open Scope string_scope.
Local Open Scope list_scope.

(** ** Python builtins used by the source *)

Module Py.

(** [str.isspace] on one code point below 256: the characters [str.strip]
    removes. *)
Definition is_space (c : ascii) : bool :=
  let n := nat_of_ascii c in
  (Nat.leb 9 n && Nat.leb n 13) || (Nat.leb 28 n && Nat.leb n 32)
  || Nat.eqb n 133 || Nat.eqb n 160.

Fixpoint lstrip (s : string) : string :=
  match s with
  | EmptyString => EmptyString
  | String c s' => if is_space c then lstrip s' else s
  end.

Fixpoint rstrip (s : string) : string :=
  match s with
  | EmptyString => EmptyString
  | String c s' =>
      match rstrip s' with
      | EmptyString => if is_space c then EmptyString else String c EmptyString
      | r => String c r
      end
  end.

(** [s.strip()] *)
Definition strip (s : string) : string := rstrip (lstrip s).

(** [s.startswith(p)] *)
Definition startswith (s p : string) : bool := String.prefix p s.

(** [s[n:]] *)
Fixpoint slice_from (n : nat) (s : string) : string :=
  match n, s with
  | O, _ => s
  | S _, EmptyString => EmptyString
  | S n', String _ s' => slice_from n' s'
  end.

(** Truth value of a string: [if content:] *)
Definition truthy (s : string) : bool :=
  match s with EmptyString => false | String _ _ => true end.

(** [str(n)] for a non-negative [int] *)
Definition str_of_int (n : nat) : string :=
  NilZero.string_of_uint (Nat.to_uint n).

Definition squote : ascii := "'"%char.
Definition dquote : ascii := "034"%char.
Definition backslash : ascii := "092"%char.

Fixpoint contains (c : ascii) (s : string) : bool :=
  match s with
  | EmptyString => false
  | String d s' => Ascii.eqb c d || contains c s'
  end.

Definition hexdigit (n : nat) : ascii :=
  if Nat.ltb n 10 then ascii_of_nat (48 + n) else ascii_of_nat (87 + n).

(** [\xhh] *)
Definition hex_escape (n : nat) : string :=
  String backslash
    (String "x" (String (hexdigit (n / 16)) (String (hexdigit (n mod 16)) ""))).

(** [str.isprintable] on one code point in 128..255 *)
Definition isprintable_high (n : nat) : bool :=
  Nat.ltb 160 n && negb (Nat.eqb n 173).

(** One character of [repr(s)], with [quote] the delimiter chosen. *)
Definition repr_char (quote c : ascii) : string :=
  let n := nat_of_ascii c in
  if Ascii.eqb c quote || Ascii.eqb c backslash then String backslash (String c "")
  else if Nat.eqb n 9 then String backslash "t"
  else if Nat.eqb n 10 then String backslash "n"
  else if Nat.eqb n 13 then String backslash "r"
  else if Nat.ltb n 32 || Nat.eqb n 127 then hex_escape n
  else if Nat.ltb n 127 then String c ""
  else if isprintable_high n then String c "" else hex_escape n.

Fixpoint repr_chars (quote : ascii) (s : string) : string :=
  match s with
  | EmptyString => EmptyString
  | String c s' => repr_char quote c ++ repr_chars quote s'
  end.

(** [repr(s)] for a string: single quotes, unless the string holds a
    single quote and no double quote. *)
Definition repr_str (s : string) : string :=
  let quote := if contains squote s && negb (contains dquote s)
               then dquote else squote in
  String quote (repr_chars quote s ++ String quote "").

(** A [Dict[str, str]], in insertion order. *)
Definition Dict : Type := list (string * string).

Definition repr_item (kv : string * string) : string :=
  repr_str (fst kv) ++ ": " ++ repr_str (snd kv).

Fixpoint join (sep : string) (l : list string) : string :=
  match l with
  | [] => ""
  | [x] => x
  | x :: l' => x ++ sep ++ join sep l'
  end.

(** [repr(d)], which is also [str(d)] and what [f"{d}"] inserts. *)
Definition repr_dict (d : Dict) : string :=
  "{" ++ join ", " (map repr_item d) ++ "}".

(** [x in l] on a list of objects compared by identity *)
Definition list_in (x : nat) (l : list nat) : bool := existsb (Nat.eqb x) l.

(** [l.remove(x)]: the list without its first [x]; [None] stands for the
    [ValueError] raised when [x] is not in [l]. *)
Fixpoint list_remove (x : nat) (l : list nat) : option (list nat) :=
  match l with
  | [] => None
  | y :: l' =>
      if Nat.eqb y x then Some l'
      else match list_remove x l' with
           | Some r => Some (y :: r)
           | None => None
           end
  end.

End Py.

(** ** State, effects and the monad of the handlers *)

Definition WebSocket : Type := nat.
Definition Task : Type := Py.Dict.

(** The transport: does the channel of a connection take a frame now? *)
Definition Net : Type := WebSocket -> bool.

Inductive Event : Type :=
| Accepted (ws : WebSocket)                 (* websocket.accept() *)
| Registered (ws : WebSocket)               (* active_connections.append *)
| Sent (ws : WebSocket) (msg : string)      (* send_text delivered msg *)
| SendFailed (ws : WebSocket) (msg : string)(* send_text raised *)
| Unregistered (ws : WebSocket)             (* active_connections.remove *)
| Stored (task : Task).                     (* tasks.append *)

Record State : Type := mkState {
  tasks : list Task;
  active_connections : list WebSocket;
  trace : list Event
}.

Definition initial : State := mkState [] [] [].

Inductive exn : Type := WebSocketDisconnect | ValueError.

Inductive result (A : Type) : Type :=
| Return (a : A)
| Raise (e : exn).
Arguments Return {A} a.
Arguments Raise {A} e.

Definition M (A : Type) : Type := State -> result A * State.

Definition ret {A} (a : A) : M A := fun st => (Return a, st).
Definition raise {A} (e : exn) : M A := fun st => (Raise e, st).
Definition bind {A B} (c : M A) (k : A -> M B) : M B :=
  fun st =>
    match c st with
    | (Return a, st') => k a st'
    | (Raise e, st') => (Raise e, st')
    end.

Declare Scope py_scope.
Delimit Scope py_scope with py.
Notation "x <- c ;; k" := (bind c (fun x => k))
  (at level 61, c at next level, right associativity) : py_scope.
Notation "c ;; k" := (bind c (fun _ => k))
  (at level 61, right associativity) : py_scope.
Local Open Scope py_scope.

(** [try: body  except WebSocketDisconnect: handler]: an exception of
    another class passes through. *)
Definition try_except_disconnect {A} (body handler : M A) : M A :=
  fun st =>
    match body st with
    | (Raise WebSocketDisconnect, st') => handler st'
    | r => r
    end.

Definition gets {A} (f : State -> A) : M A := fun st => (Return (f st), st).
Definition modify (f : State -> State) : M unit := fun st => (Return tt, f st).

Ltac run_monad :=
  unfold bind, ret, raise, gets, modify, try_except_disconnect; simpl.

Definition log (e : Event) (st : State) : State :=
  mkState (tasks st) (active_connections st) (trace st ++ [e]).
Definition set_connections (l : list WebSocket) (st : State) : State :=
  mkState (tasks st) l (trace st).
Definition set_tasks (l : list Task) (st : State) : State :=
  mkState l (active_connections st) (trace st).

(** [tasks.append(task)] *)
Definition tasks_append (task : Task) : M unit :=
  modify (fun st => log (Stored task) (set_tasks (tasks st ++ [task]) st)).

(** [await websocket.accept()] on a new socket whose handshake succeeds;
    [Starlette.accept] below has the socket that was accepted before. *)
Definition accept (ws : WebSocket) : M unit := modify (log (Accepted ws)).

(** [await connection.send_text(message)] on a connected socket: the frame
    is sent, or the channel is broken and Starlette raises
    [WebSocketDisconnect]; [Starlette.send] below has the socket that is
    closed as well. *)
Definition send_text (net : Net) (ws : WebSocket) (message : string) : M unit :=
  if net ws
  then modify (log (Sent ws message))
  else (modify (log (SendFailed ws message)) ;; raise WebSocketDisconnect).

(** What [receive_text] produces in a handler's loop on a connected socket
    that is sent texts; [Starlette.receive_text] below has the other frames
    and the socket that is closed. *)
Inductive Received : Type :=
| Text (data : string)    (* returns data *)
| Disconnect.             (* raises WebSocketDisconnect *)

(** ** class ConnectionManager *)

Module ConnectionManager.

Definition connect (websocket : WebSocket) : M unit :=
  accept websocket ;;
  modify (fun st =>
    log (Registered websocket)
        (set_connections (active_connections st ++ [websocket]) st)).

Definition disconnect (websocket : WebSocket) : M unit :=
  fun st =>
    if Py.list_in websocket (active_connections st)
    then match Py.list_remove websocket (active_connections st) with
         | Some l => (Return tt, log (Unregistered websocket) (set_connections l st))
         | None => (Raise ValueError, st)
         end
    else (Return tt, st).

(** The first loop of [broadcast], over the copy of the registry;
    [disconnected] is the local list it fills. *)
Fixpoint broadcast_send (net : Net) (message : string)
    (connections disconnected : list WebSocket) : M (list WebSocket) :=
  match connections with
  | [] => ret disconnected
  | connection :: rest =>
      d <- try_except_disconnect
             (send_text net connection message ;; ret disconnected)
             (ret (disconnected ++ [connection])) ;;
      broadcast_send net message rest d
  end.

(** The second loop: [for websocket in disconnected: self.disconnect(websocket)] *)
Fixpoint broadcast_cleanup (disconnected : list WebSocket) : M unit :=
  match disconnected with
  | [] => ret tt
  | websocket :: rest => disconnect websocket ;; broadcast_cleanup rest
  end.

Definition broadcast (net : Net) (message : string) : M unit :=
  snapshot <- gets active_connections ;;
  disconnected <- broadcast_send net message snapshot [] ;;
  broadcast_cleanup disconnected.

End ConnectionManager.

Import ConnectionManager.

(** ** The REST handlers *)

(** [GET /tasks] *)
Definition get_tasks : M (list (string * list Task)) :=
  ts <- gets tasks ;;
  ret [("tasks", ts)].

(** [POST /tasks] *)
Definition add_task (net : Net) (task : Task) : M Py.Dict :=
  tasks_append task ;;
  broadcast net ("new_task:" ++ Py.repr_dict task) ;;
  ret [("status", "task_added")].

(** ** The websocket handler *)

(** The body of the [while True] loop once [receive_text] has returned
    [data]. *)
Definition on_text (net : Net) (data : string) : M unit :=
  if Py.startswith data "add_task:" then
    let content := Py.strip (Py.slice_from (String.length "add_task:") data) in
    if Py.truthy content then
      n <- gets (fun st => List.length (tasks st)) ;;
      let task : Task := [("id", Py.str_of_int n); ("content", content)] in
      tasks_append task ;;
      broadcast net ("new_task:" ++ Py.repr_dict task)
    else ret tt
  else
    broadcast net ("message:" ++ data).

(** Where a call of [websocket_endpoint] stands when its inbox is used up:
    still in the loop, waiting in [receive_text], or returned. *)
Inductive Status : Type := Receiving | Closed.

(** The [while True] loop over what the connection delivers. *)
Fixpoint receive_loop (net : Net) (inbox : list Received) : M Status :=
  match inbox with
  | [] => ret Receiving
  | Text data :: rest => on_text net data ;; receive_loop net rest
  | Disconnect :: _ => raise WebSocketDisconnect
  end.

Definition on_disconnect (net : Net) (websocket : WebSocket) : M Status :=
  disconnect websocket ;;
  broadcast net "A client disconnected" ;;
  ret Closed.

Definition websocket_endpoint (net : Net) (websocket : WebSocket)
    (inbox : list Received) : M Status :=
  connect websocket ;;
  try_except_disconnect (receive_loop net inbox) (on_disconnect net websocket).

(** The handler of one connection from the point where it waits in
    [receive_text]: the [try] block of [websocket_endpoint] after [connect]. *)
Definition resume (net : Net) (websocket : WebSocket)
    (inbox : list Received) : M Status :=
  try_except_disconnect (receive_loop net inbox) (on_disconnect net websocket).

(** ** The server as a sequence of calls *)

Inductive Call : Type :=
| GET_tasks
| POST_tasks (task : Task)
| WS_open (ws : WebSocket)                  (* a client connects to /ws *)
| WS_receive (ws : WebSocket) (r : Received). (* the pending receive of ws ends *)

Definition dispatch (net : Net) (c : Call) : M unit :=
  match c with
  | GET_tasks => get_tasks ;; ret tt
  | POST_tasks task => add_task net task ;; ret tt
  | WS_open ws => connect ws
  | WS_receive ws r => resume net ws [r] ;; ret tt
  end.

Definition exec {A} (c : M A) (st : State) : State := snd (c st).

Fixpoint run (calls : list (Net * Call)) (st : State) : State :=
  match calls with
  | [] => st
  | (net, c) :: rest => run rest (exec (dispatch net c) st)
  end.

(** A new connection is a new object: it differs from every object the
    registry holds. *)
Definition admissible (c : Call) (st : State) : Prop :=
  match c with
  | WS_open ws => ~ In ws (active_connections st)
  | _ => True
  end.

Inductive reachable : State -> Prop :=
| reachable_initial : reachable initial
| reachable_step st net c :
    reachable st -> admissible c st -> reachable (exec (dispatch net c) st).

(** ** Vocabulary of the statements *)

(** The list without its first [x], if it has one. *)
Fixpoint remove_first (x : WebSocket) (l : list WebSocket) : list WebSocket :=
  match l with
  | [] => []
  | y :: l' => if Nat.eqb y x then l' else y :: remove_first x l'
  end.

Definition remove_each (d l : list WebSocket) : list WebSocket :=
  fold_left (fun acc x => remove_first x acc) d l.

(** The channels of [l] that refuse a frame. *)
Definition failing (net : Net) (l : list WebSocket) : list WebSocket :=
  filter (fun ws => negb (net ws)) l.

(** The trace of one [send_text]. *)
Definition attempt (net : Net) (msg : string) (ws : WebSocket) : Event :=
  if net ws then Sent ws msg else SendFailed ws msg.

(** The trace of one broadcast pass over the registry [l]. *)
Definition pass_events (net : Net) (msg : string) (l : list WebSocket)
  : list Event :=
  map (attempt net msg) l ++ map Unregistered (failing net l).

Definition is_send_to (ws : WebSocket) (e : Event) : bool :=
  match e with
  | Sent w _ | SendFailed w _ => Nat.eqb w ws
  | _ => false
  end.

Definition is_send (e : Event) : bool :=
  match e with
  | Sent _ _ | SendFailed _ _ => true
  | _ => false
  end.

(** The text after the [add_task:] tag, trimmed. *)
Definition add_task_content (data : string) : string :=
  Py.strip (Py.slice_from (String.length "add_task:") data).

(** The task a call stores when the store holds [k] tasks, if it stores
    one. *)
Definition stored (k : nat) (c : Call) : option Task :=
  match c with
  | POST_tasks task => Some task
  | WS_receive _ (Text data) =>
      if Py.startswith data "add_task:" && Py.truthy (add_task_content data)
      then Some [("id", Py.str_of_int k); ("content", add_task_content data)]
      else None
  | _ => None
  end.

(** The tasks a sequence of calls stores, from a store of [k] tasks. *)
Fixpoint stored_by (k : nat) (calls : list (Net * Call)) : list Task :=
  match calls with
  | [] => []
  | (_, c) :: rest =>
      match stored k c with
      | Some task => task :: stored_by (S k) rest
      | None => stored_by k rest
      end
  end.

(** A task-creating call: a POST, or a frame with the tag and some text. *)
Definition creates (c : Call) : bool :=
  match stored 0 c with Some _ => true | None => false end.

(** ** Vocabulary of the further properties *)




(** The three forms of frame the source builds. *)
Definition server_frame (msg : string) : bool :=
  Py.startswith msg "new_task:" || Py.startswith msg "message:"
  || String.eqb msg "A client disconnected".

Definition carries_server_frame (e : Event) : bool :=
  match e with
  | Sent _ msg | SendFailed _ msg => server_frame msg
  | _ => true
  end.

(** The connections a trace has registered. *)
Fixpoint registered_in (tr : list Event) : list WebSocket :=
  match tr with
  | [] => []
  | Registered ws :: tr' => ws :: registered_in tr'
  | _ :: tr' => registered_in tr'
  end.

(** Every send of the trace goes to a connection registered earlier in the
    trace, or [known] before it. *)
Fixpoint well_addressed (known : list WebSocket) (tr : list Event) : bool :=
  match tr with
  | [] => true
  | Registered ws :: tr' => well_addressed (ws :: known) tr'
  | Sent ws _ :: tr' | SendFailed ws _ :: tr' =>
      Py.list_in ws known && well_addressed known tr'
  | _ :: tr' => well_addressed known tr'
  end.

Definition is_post (c : Call) : bool :=
  match c with POST_tasks _ => true | _ => false end.

Fixpoint all_space (s : string) : bool :=
  match s with
  | EmptyString => true
  | String c s' => Py.is_space c && all_space s'
  end.

Definition starts_with_space (s : string) : bool :=
  match s with
  | EmptyString => false
  | String c _ => Py.is_space c
  end.

Fixpoint ends_with_space (s : string) : bool :=
  match s with
  | EmptyString => false
  | String c EmptyString => Py.is_space c
  | String _ s' => ends_with_space s'
  end.

(** A character [repr] copies as it is whatever the delimiter: printable
    ASCII other than the two quotes and the backslash. *)
Definition plain (c : ascii) : bool :=
  let n := nat_of_ascii c in
  Nat.leb 32 n && Nat.ltb n 127
  && negb (Ascii.eqb c Py.squote) && negb (Ascii.eqb c Py.dquote)
  && negb (Ascii.eqb c Py.backslash).

Fixpoint all_plain (s : string) : bool :=
  match s with
  | EmptyString => true
  | String c s' => plain c && all_plain s'
  end.

(** A dict whose keys and values are all made of plain characters, and how
    one of its items reads between single quotes. *)
Definition all_plain_dict (d : Py.Dict) : bool :=
  forallb (fun kv => all_plain (fst kv) && all_plain (snd kv)) d.

Definition quoted_item (kv : string * string) : string :=
  "'" ++ fst kv ++ "': '" ++ snd kv ++ "'".

(** How often a trace registers, and unregisters, a connection. *)
Fixpoint registrations (ws : WebSocket) (tr : list Event) : nat :=
  match tr with
  | [] => 0
  | Registered w :: tr' => (if Nat.eqb w ws then 1 else 0) + registrations ws tr'
  | _ :: tr' => registrations ws tr'
  end.

Fixpoint removals (ws : WebSocket) (tr : list Event) : nat :=
  match tr with
  | [] => 0
  | Unregistered w :: tr' => (if Nat.eqb w ws then 1 else 0) + removals ws tr'
  | _ :: tr' => removals ws tr'
  end.

(** ** The Starlette calls with the state of the socket

    The handlers above take [accept], [send_text] and [receive_text] at
    their normal outcomes.  Starlette's [WebSocket] keeps two state
    variables and checks them in every call; the definitions below follow
    [starlette/websockets.py] (0.46.2) and keep these checks, so that a call
    on a socket in the wrong state raises [RuntimeError] and a frame without
    text raises [KeyError], neither of which the source catches. *)

Module Starlette.

Inductive WebSocketState : Type :=
| CONNECTING | CONNECTED | DISCONNECTED | RESPONSE.

(** The two state variables of a [WebSocket]. *)
Record Socket : Type := mkSocket {
  client_state : WebSocketState;
  application_state : WebSocketState
}.

(** [WebSocket.__init__] *)
Definition new_socket : Socket := mkSocket CONNECTING CONNECTING.

(** The ASGI messages the server hands to [receive]. *)
Inductive Message : Type :=
| websocket_connect
| websocket_receive_text (text : string)
| websocket_receive_bytes                 (* a frame with bytes and no text *)
| websocket_disconnect.

(** The ASGI messages the source makes Starlette send. *)
Inductive Outgoing : Type :=
| websocket_accept
| websocket_send (text : string).

Inductive Error : Type :=
| Exn (e : exn)              (* WebSocketDisconnect, ValueError *)
| RuntimeError
| KeyError
| OSError.

(** [Awaits]: suspended in [await self._receive()] with no message left. *)
Inductive Outcome (A : Type) : Type :=
| Returns (a : A)
| Raises (e : Error)
| Awaits.
Arguments Returns {A} a.
Arguments Raises {A} e.
Arguments Awaits {A}.

(** The store, the registry and the trace, and the state of every socket. *)
Record World : Type := mkWorld {
  app : State;
  sockets : WebSocket -> Socket
}.

Definition IO (A : Type) : Type := World -> Outcome A * World.

Definition pure {A} (a : A) : IO A := fun w => (Returns a, w).
Definition throw {A} (e : Error) : IO A := fun w => (Raises e, w).
Definition suspend {A} : IO A := fun w => (Awaits, w).
Definition and_then {A B} (c : IO A) (k : A -> IO B) : IO B :=
  fun w =>
    match c w with
    | (Returns a, w') => k a w'
    | (Raises e, w') => (Raises e, w')
    | (Awaits, w') => (Awaits, w')
    end.

(** [try: body  except E: handler], for the class [E] that [catches]
    recognises. *)
Definition try_except {A} (catches : Error -> bool) (body handler : IO A)
  : IO A :=
  fun w =>
    match body w with
    | (Raises e, w') => if catches e then handler w' else (Raises e, w')
    | r => r
    end.

Definition is_OSError (e : Error) : bool :=
  match e with OSError => true | _ => false end.
Definition is_WebSocketDisconnect (e : Error) : bool :=
  match e with Exn WebSocketDisconnect => true | _ => false end.

Definition with_app (st : State) (w : World) : World := mkWorld st (sockets w).

(** A computation of the handlers above, on the [app] part of the world. *)
Definition lift {A} (c : M A) : IO A :=
  fun w =>
    match c (app w) with
    | (Return a, st) => (Returns a, with_app st w)
    | (Raise e, st) => (Raises (Exn e), with_app st w)
    end.

Definition the_socket (ws : WebSocket) : IO Socket :=
  fun w => (Returns (sockets w ws), w).

Definition set_socket (ws : WebSocket) (s : Socket) : IO unit :=
  fun w =>
    (Returns tt,
     mkWorld (app w) (fun x => if Nat.eqb x ws then s else sockets w x)).

(** [self.client_state = st] and [self.application_state = st] *)
Definition set_client_state (ws : WebSocket) (st : WebSocketState) : IO unit :=
  and_then (the_socket ws) (fun s => set_socket ws (mkSocket st (application_state s))).
Definition set_application_state (ws : WebSocket) (st : WebSocketState)
  : IO unit :=
  and_then (the_socket ws) (fun s => set_socket ws (mkSocket (client_state s) st)).

(** [await self._receive()]: the next message of the channel. *)
Definition _receive (inbox : list Message) : IO (Message * list Message) :=
  match inbox with
  | [] => suspend
  | message :: rest => pure (message, rest)
  end.

(** [await self._send(message)]: the server takes the message, or the
    channel is broken and it raises [OSError]. *)
Definition _send (net : Net) (ws : WebSocket) (message : Outgoing) : IO unit :=
  if net ws
  then lift (modify (log match message with
                         | websocket_accept => Accepted ws
                         | websocket_send text => Sent ws text
                         end))
  else throw OSError.

(** [WebSocket.receive] *)
Definition receive (ws : WebSocket) (inbox : list Message)
  : IO (Message * list Message) :=
  and_then (the_socket ws) (fun s =>
  match client_state s with
  | CONNECTING =>
      and_then (_receive inbox) (fun mr =>
      match fst mr with
      | websocket_connect =>
          and_then (set_client_state ws CONNECTED) (fun _ => pure mr)
      | _ => throw RuntimeError
      end)
  | CONNECTED =>
      and_then (_receive inbox) (fun mr =>
      match fst mr with
      | websocket_connect => throw RuntimeError
      | websocket_disconnect =>
          and_then (set_client_state ws DISCONNECTED) (fun _ => pure mr)
      | _ => pure mr
      end)
  | _ => throw RuntimeError
  end).

(** [WebSocket.send] *)
Definition send (net : Net) (ws : WebSocket) (message : Outgoing) : IO unit :=
  and_then (the_socket ws) (fun s =>
  match application_state s with
  | CONNECTING =>
      match message with
      | websocket_accept =>
          and_then (set_application_state ws CONNECTED) (fun _ =>
          _send net ws message)
      | websocket_send _ => throw RuntimeError
      end
  | CONNECTED =>
      match message with
      | websocket_send text =>
          try_except is_OSError (_send net ws message)
            (and_then (set_application_state ws DISCONNECTED) (fun _ =>
             and_then (lift (modify (log (SendFailed ws text)))) (fun _ =>
             throw (Exn WebSocketDisconnect))))
      | websocket_accept => throw RuntimeError
      end
  | _ => throw RuntimeError
  end).

(** [WebSocket.accept]: what is left of the inbox is returned. *)
Definition accept (net : Net) (ws : WebSocket) (inbox : list Message)
  : IO (list Message) :=
  and_then (the_socket ws) (fun s =>
  and_then (match client_state s with
            | CONNECTING => and_then (receive ws inbox) (fun mr => pure (snd mr))
            | _ => pure inbox
            end) (fun rest =>
  and_then (send net ws websocket_accept) (fun _ => pure rest))).

(** [WebSocket.send_text] *)
Definition send_text (net : Net) (ws : WebSocket) (data : string) : IO unit :=
  send net ws (websocket_send data).

(** [WebSocket.receive_text]: the text and what is left of the inbox. *)
Definition receive_text (ws : WebSocket) (inbox : list Message)
  : IO (string * list Message) :=
  and_then (the_socket ws) (fun s =>
  match application_state s with
  | CONNECTED =>
      and_then (receive ws inbox) (fun mr =>
      match fst mr with
      | websocket_disconnect => throw (Exn WebSocketDisconnect)
      | websocket_receive_text text => pure (text, snd mr)
      | _ => throw KeyError
      end)
  | _ => throw RuntimeError
  end).

(** [receive_text] from the point where it is suspended: a call made when
    both states were [CONNECTED], completed by the next message. *)
Definition receive_text_resumed (ws : WebSocket) (inbox : list Message)
  : IO (string * list Message) :=
  and_then (_receive inbox) (fun mr =>
  match fst mr with
  | websocket_connect => throw RuntimeError
  | websocket_disconnect =>
      and_then (set_client_state ws DISCONNECTED) (fun _ =>
      throw (Exn WebSocketDisconnect))
  | websocket_receive_text text => pure (text, snd mr)
  | websocket_receive_bytes => throw KeyError
  end).

End Starlette.

(** ** The source over the Starlette calls *)

Module Service.

Import Starlette.

Declare Scope io_scope.
Delimit Scope io_scope with io.
Notation "x <- c ;; k" := (and_then c (fun x => k))
  (at level 61, c at next level, right associativity) : io_scope.
Notation "c ;; k" := (and_then c (fun _ => k))
  (at level 61, right associativity) : io_scope.
Local Open Scope io_scope.

(** [ConnectionManager.connect] *)
Definition connect (net : Net) (websocket : WebSocket) (inbox : list Message)
  : IO (list Message) :=
  rest <- accept net websocket inbox ;;
  lift (modify (fun st =>
    log (Registered websocket)
        (set_connections (active_connections st ++ [websocket]) st))) ;;
  pure rest.

(** [ConnectionManager.disconnect] *)
Definition disconnect (websocket : WebSocket) : IO unit :=
  lift (ConnectionManager.disconnect websocket).

Fixpoint broadcast_send (net : Net) (message : string)
    (connections disconnected : list WebSocket) : IO (list WebSocket) :=
  match connections with
  | [] => pure disconnected
  | connection :: rest =>
      d <- try_except is_WebSocketDisconnect
             (send_text net connection message ;; pure disconnected)
             (pure (disconnected ++ [connection])) ;;
      broadcast_send net message rest d
  end.

Fixpoint broadcast_cleanup (disconnected : list WebSocket) : IO unit :=
  match disconnected with
  | [] => pure tt
  | websocket :: rest => disconnect websocket ;; broadcast_cleanup rest
  end.

(** [ConnectionManager.broadcast] *)
Definition broadcast (net : Net) (message : string) : IO unit :=
  snapshot <- lift (gets active_connections) ;;
  disconnected <- broadcast_send net message snapshot [] ;;
  broadcast_cleanup disconnected.

(** [POST /tasks] *)
Definition add_task (net : Net) (task : Task) : IO Py.Dict :=
  lift (tasks_append task) ;;
  broadcast net ("new_task:" ++ Py.repr_dict task) ;;
  pure [("status", "task_added")].

(** The body of the [while True] loop after [receive_text]. *)
Definition on_text (net : Net) (data : string) : IO unit :=
  if Py.startswith data "add_task:" then
    let content := Py.strip (Py.slice_from (String.length "add_task:") data) in
    if Py.truthy content then
      n <- lift (gets (fun st => List.length (tasks st))) ;;
      let task : Task := [("id", Py.str_of_int n); ("content", content)] in
      lift (tasks_append task) ;;
      broadcast net ("new_task:" ++ Py.repr_dict task)
    else pure tt
  else
    broadcast net ("message:" ++ data).

(** The [while True] loop; each turn takes the next message of the inbox. *)
Fixpoint receive_loop (net : Net) (websocket : WebSocket)
    (inbox : list Message) : IO unit :=
  match inbox with
  | [] => receive_text websocket [] ;; pure tt
  | _ :: rest =>
      dr <- receive_text websocket inbox ;;
      on_text net (fst dr) ;;
      receive_loop net websocket rest
  end.

(** The [except WebSocketDisconnect] branch. *)
Definition on_disconnect (net : Net) (websocket : WebSocket) : IO unit :=
  disconnect websocket ;;
  broadcast net "A client disconnected".

(** [websocket_endpoint]: it returns, raises, or stays suspended in a
    receive when the inbox is used up. *)
Definition websocket_endpoint (net : Net) (websocket : WebSocket)
    (inbox : list Message) : IO unit :=
  rest <- connect net websocket inbox ;;
  try_except is_WebSocketDisconnect
    (receive_loop net websocket rest)
    (on_disconnect net websocket).

(** A call of [websocket_endpoint] that is suspended in [receive_text],
    when further messages arrive. *)
Definition resume (net : Net) (websocket : WebSocket)
    (inbox : list Message) : IO unit :=
  try_except is_WebSocketDisconnect
    (match inbox with
     | [] => suspend
     | _ :: rest =>
         dr <- receive_text_resumed websocket inbox ;;
         on_text net (fst dr) ;;
         receive_loop net websocket rest
     end)
    (on_disconnect net websocket).

(** What happens at the server, one call at a time. *)
Inductive Call : Type :=
| GET_tasks
| POST_tasks (task : Task)
| WS_open (ws : WebSocket) (inbox : list Message)    (* a client connects *)
| WS_more (ws : WebSocket) (inbox : list Message).   (* messages for a
                                                        suspended handler *)

Definition dispatch (net : Net) (c : Call) : IO unit :=
  match c with
  | GET_tasks => lift get_tasks ;; pure tt
  | POST_tasks task => add_task net task ;; pure tt
  | WS_open ws inbox => websocket_endpoint net ws inbox
  | WS_more ws inbox => resume net ws inbox
  end.

Fixpoint run (calls : list (Net * Call)) (w : World) : World :=
  match calls with
  | [] => w
  | (net, c) :: rest => run rest (snd (dispatch net c w))
  end.

(** The server at its start: nothing stored, nobody registered, every
    socket as [WebSocket.__init__] leaves it. *)
Definition boot : World := mkWorld initial (fun _ => new_socket).

(** The registry holds no socket twice, and only sockets whose
    application state is [CONNECTED]. *)
Definition healthy (w : World) : Prop :=
  NoDup (active_connections (app w))
  /\ forall c, In c (active_connections (app w)) ->
               application_state (sockets w c) = CONNECTED.

(** The world after sends failed on the sockets [l]. *)
Definition closed (l : list WebSocket) (w : World) (x : WebSocket) : Socket :=
  if Py.list_in x l
  then mkSocket (client_state (sockets w x)) DISCONNECTED
  else sockets w x.

End Service.

(** ** Vocabulary for the states of the sockets *)

(** From [w] to [w']: a socket that was closed and out of the registry is
    still closed and out of it, and what the trace gained holds no send to
    it. *)
Definition never_back (w w' : Starlette.World) : Prop :=
  forall ws,
    Starlette.application_state (Starlette.sockets w ws) = Starlette.DISCONNECTED ->
    ~ In ws (active_connections (Starlette.app w)) ->
    Starlette.application_state (Starlette.sockets w' ws) = Starlette.DISCONNECTED
    /\ ~ In ws (active_connections (Starlette.app w'))
    /\ exists new,
         trace (Starlette.app w') = trace (Starlette.app w) ++ new
         /\ forallb (fun e => negb (is_send_to ws e)) new = true.

(** A computation that keeps the registry healthy and brings no closed
    socket back. *)
Definition sound {A} (c : Starlette.IO A) : Prop :=
  forall w,
    Service.healthy w ->
    Service.healthy (snd (c w)) /\ never_back w (snd (c w)).

(** The items of an inbox of the first embedding as ASGI messages. *)
Definition message_of (r : Received) : Starlette.Message :=
  match r with
  | Text data => Starlette.websocket_receive_text data
  | Disconnect => Starlette.websocket_disconnect
  end.

Ltac run_io :=
  unfold Starlette.and_then, Starlette.pure, Starlette.throw,
    Starlette.suspend, Starlette.the_socket, Starlette.set_socket,
    Starlette.set_client_state, Starlette.set_application_state,
    Starlette.try_except, Starlette.lift, Starlette.with_app,
    modify, gets; simpl.

(** ** Runs on concrete inputs *)

Definition all_up : Net := fun _ => true.
Definition down (dead : list WebSocket) : Net := fun ws => negb (Py.list_in ws dead).

Example repr_dict_example :
  Py.repr_dict [("id", "0"); ("content", "write report")]
  = "{'id': '0', 'content': 'write report'}".
Proof. reflexivity. Qed.

Example strip_example : Py.strip "  write report  " = "write report".
Proof. reflexivity. Qed.

Example post_example :
  add_task all_up [("name", "buy milk")] (mkState [] [1; 2] [])
  = (Return [("status", "task_added")],
     mkState [[("name", "buy milk")]] [1; 2]
       [Stored [("name", "buy milk")];
        Sent 1 "new_task:{'name': 'buy milk'}";
        Sent 2 "new_task:{'name': 'buy milk'}"]).
Proof. reflexivity. Qed.

Example add_task_frame_example :
  resume all_up 1 [Text "add_task:  write report  "] (mkState [] [1; 2] [])
  = (Return Receiving,
     mkState [[("id", "0"); ("content", "write report")]] [1; 2]
       [Stored [("id", "0"); ("content", "write report")];
        Sent 1 "new_task:{'id': '0', 'content': 'write report'}";
        Sent 2 "new_task:{'id': '0', 'content': 'write report'}"]).
Proof. reflexivity. Qed.

Example message_example :
  resume all_up 1 [Text "hello everyone"] (mkState [] [1; 2] [])
  = (Return Receiving,
     mkState [] [1; 2]
       [Sent 1 "message:hello everyone"; Sent 2 "message:hello everyone"]).
Proof. reflexivity. Qed.

Example disconnect_example :
  resume all_up 1 [Disconnect; Text "late"] (mkState [] [1; 2; 3] [])
  = (Return Closed,
     mkState [] [2; 3]
       [Unregistered 1; Sent 2 "A client disconnected";
        Sent 3 "A client disconnected"]).
Proof. reflexivity. Qed.

Example broadcast_failure_example :
  broadcast (down [2; 3]) "m" (mkState [] [1; 2; 3; 4] [])
  = (Return tt,
     mkState [] [1; 4]
       [Sent 1 "m"; SendFailed 2 "m"; SendFailed 3 "m"; Sent 4 "m";
        Unregistered 2; Unregistered 3]).
Proof. reflexivity. Qed.

Example endpoint_example :
  websocket_endpoint all_up 7 [Text "add_task:"; Text "add_task: a"; Disconnect]
    (mkState [[("k", "v")]] [5] [])
  = (Return Closed,
     mkState [[("k", "v")]; [("id", "1"); ("content", "a")]] [5]
       [Accepted 7; Registered 7; Stored [("id", "1"); ("content", "a")];
        Sent 5 "new_task:{'id': '1', 'content': 'a'}";
        Sent 7 "new_task:{'id': '1', 'content': 'a'}";
        Unregistered 7; Sent 5 "A client disconnected"]).
Proof. reflexivity. Qed.

(** ** Lists of connections *)

Lemma list_in_In (x : WebSocket) (l : list WebSocket) :
  Py.list_in x l = true <-> In x l.
Proof.
  unfold Py.list_in. rewrite existsb_exists. split.
  - intros [y [Hy E]]. apply Nat.eqb_eq in E. now subst.
  - intros H. exists x. split; [assumption | apply Nat.eqb_refl].
Qed.

Lemma list_in_false (x : WebSocket) (l : list WebSocket) :
  Py.list_in x l = false <-> ~ In x l.
Proof.
  rewrite <- list_in_In. destruct (Py.list_in x l); split; congruence.
Qed.

Lemma list_remove_present (x : WebSocket) (l : list WebSocket) :
  In x l -> Py.list_remove x l = Some (remove_first x l).
Proof.
  induction l as [|y l IH]; simpl; [tauto|].
  intros [E | H].
  - subst. now rewrite Nat.eqb_refl.
  - destruct (Nat.eqb y x); [reflexivity | now rewrite IH].
Qed.

Lemma list_remove_absent (x : WebSocket) (l : list WebSocket) :
  ~ In x l -> Py.list_remove x l = None.
Proof.
  induction l as [|y l IH]; simpl; [reflexivity|].
  intros H. destruct (Nat.eqb_spec y x) as [E | _]; [tauto|].
  rewrite IH; tauto.
Qed.

Lemma remove_first_absent (x : WebSocket) (l : list WebSocket) :
  ~ In x l -> remove_first x l = l.
Proof.
  induction l as [|y l IH]; simpl; [reflexivity|].
  intros H. destruct (Nat.eqb_spec y x) as [E | _]; [tauto|].
  f_equal. apply IH. tauto.
Qed.

Lemma remove_first_split (x : WebSocket) (l : list WebSocket) :
  In x l ->
  exists l1 l2, l = l1 ++ x :: l2 /\ ~ In x l1 /\ remove_first x l = l1 ++ l2.
Proof.
  induction l as [|y l IH]; simpl; [tauto|].
  intros H. destruct (Nat.eqb_spec y x) as [E | N].
  - subst. exists [], l. simpl. tauto.
  - destruct H as [E | H]; [contradiction|].
    destruct (IH H) as (l1 & l2 & E1 & N1 & E2).
    exists (y :: l1), l2. simpl. rewrite E2, <- E1.
    repeat split; try reflexivity. intros [F | F]; tauto.
Qed.

Lemma count_occ_remove_first (x y : WebSocket) (l : list WebSocket) :
  count_occ Nat.eq_dec (remove_first x l) y
  = if Nat.eq_dec x y then pred (count_occ Nat.eq_dec l y)
    else count_occ Nat.eq_dec l y.
Proof.
  induction l as [|z l IH]; simpl.
  - now destruct (Nat.eq_dec x y).
  - destruct (Nat.eqb_spec z x) as [E | N].
    + subst z. destruct (Nat.eq_dec x y); reflexivity.
    + simpl. rewrite IH.
      destruct (Nat.eq_dec z y), (Nat.eq_dec x y); try reflexivity.
      congruence.
Qed.

Lemma In_remove_first (x y : WebSocket) (l : list WebSocket) :
  In y (remove_first x l) -> In y l.
Proof.
  induction l as [|z l IH]; simpl; [tauto|].
  destruct (Nat.eqb z x); simpl; tauto.
Qed.

Lemma NoDup_remove_first (x : WebSocket) (l : list WebSocket) :
  NoDup l -> NoDup (remove_first x l) /\ ~ In x (remove_first x l).
Proof.
  induction 1 as [|z l Hz Hl IH]; simpl.
  - split; [constructor | tauto].
  - destruct (Nat.eqb_spec z x) as [E | N].
    + subst. tauto.
    + destruct IH as [IH1 IH2]. split.
      * constructor; [|assumption]. intros F. apply Hz. eapply In_remove_first, F.
      * simpl. tauto.
Qed.

Lemma remove_each_keep (a : WebSocket) (d l : list WebSocket) :
  ~ In a d -> remove_each d (a :: l) = a :: remove_each d l.
Proof.
  unfold remove_each. revert l.
  induction d as [|x d IH]; intros l H; simpl; [reflexivity|].
  destruct (Nat.eqb_spec a x) as [E | N].
  - subst. simpl in H. tauto.
  - apply IH. simpl in H. tauto.
Qed.

(** Removing, one occurrence at a time, every failing entry of a registry
    leaves the entries whose channel is up, in their order. *)
Lemma remove_each_failing (net : Net) (l : list WebSocket) :
  remove_each (failing net l) l = filter net l.
Proof.
  induction l as [|a l IH]; simpl; [reflexivity|].
  unfold failing in *. simpl. destruct (net a) eqn:Ha; simpl.
  - rewrite remove_each_keep, IH; [reflexivity|].
    intros F. apply filter_In in F. rewrite Ha in F. simpl in F. intuition congruence.
  - unfold remove_each. simpl. rewrite Nat.eqb_refl. apply IH.
Qed.

(** ** What the methods of ConnectionManager compute *)

Lemma connect_run (ws : WebSocket) (st : State) :
  connect ws st
  = (Return tt,
     mkState (tasks st) (active_connections st ++ [ws])
             (trace st ++ [Accepted ws; Registered ws])).
Proof.
  unfold connect, accept, log, set_connections. run_monad.
  now rewrite <- app_assoc.
Qed.

Lemma disconnect_present (ws : WebSocket) (st : State) :
  In ws (active_connections st) ->
  disconnect ws st
  = (Return tt,
     mkState (tasks st) (remove_first ws (active_connections st))
             (trace st ++ [Unregistered ws])).
Proof.
  intros H. unfold disconnect.
  rewrite (proj2 (list_in_In _ _) H), (list_remove_present _ _ H).
  reflexivity.
Qed.

Lemma disconnect_absent (ws : WebSocket) (st : State) :
  ~ In ws (active_connections st) -> disconnect ws st = (Return tt, st).
Proof.
  intros H. unfold disconnect.
  now rewrite (proj2 (list_in_false _ _) H).
Qed.

Section Pass.

Variable net : Net.
Variable msg : string.

Lemma broadcast_send_run (conns d : list WebSocket) (st : State) :
  broadcast_send net msg conns d st
  = (Return (d ++ failing net conns),
     mkState (tasks st) (active_connections st)
             (trace st ++ map (attempt net msg) conns)).
Proof.
  revert d st. induction conns as [|c conns IH]; intros d st.
  - simpl. unfold ret. rewrite !app_nil_r. now destruct st.
  - simpl. unfold bind at 1. unfold try_except_disconnect, send_text, attempt, failing.
    simpl. destruct (net c) eqn:Hc; run_monad; rewrite IH; simpl;
      unfold failing; rewrite <- !app_assoc; reflexivity.
Qed.

Lemma broadcast_cleanup_run (d : list WebSocket) (st : State) :
  (forall x, count_occ Nat.eq_dec d x <= count_occ Nat.eq_dec (active_connections st) x) ->
  broadcast_cleanup d st
  = (Return tt,
     mkState (tasks st) (remove_each d (active_connections st))
             (trace st ++ map Unregistered d)).
Proof.
  revert st. induction d as [|x d IH]; intros st H.
  - simpl. unfold ret. rewrite app_nil_r. now destruct st.
  - simpl. unfold bind.
    assert (Hx : In x (active_connections st)).
    { apply (count_occ_In Nat.eq_dec). specialize (H x). simpl in H.
      destruct (Nat.eq_dec x x); [lia | congruence]. }
    rewrite (disconnect_present _ _ Hx), IH; simpl.
    + rewrite <- app_assoc. reflexivity.
    + intros y. rewrite count_occ_remove_first. specialize (H y). simpl in H.
      destruct (Nat.eq_dec x y); lia.
Qed.

Lemma count_occ_failing (l : list WebSocket) (x : WebSocket) :
  count_occ Nat.eq_dec (failing net l) x <= count_occ Nat.eq_dec l x.
Proof.
  induction l as [|a l IH]; simpl; [lia|].
  unfold failing in *. simpl.
  destruct (net a); simpl; destruct (Nat.eq_dec a x); lia.
Qed.

(** One pass of [broadcast]: it returns, keeps the store, leaves in the
    registry the connections whose channel took the frame, and its trace is
    every send of the pass followed by the removals. *)
Lemma broadcast_run (st : State) :
  broadcast net msg st
  = (Return tt,
     mkState (tasks st) (filter net (active_connections st))
             (trace st ++ pass_events net msg (active_connections st))).
Proof.
  unfold broadcast, gets. unfold bind at 1. unfold bind.
  rewrite broadcast_send_run. simpl.
  rewrite broadcast_cleanup_run; simpl.
  - rewrite remove_each_failing. unfold pass_events.
    now rewrite <- app_assoc.
  - apply count_occ_failing.
Qed.

End Pass.

(** ** What the handlers compute *)

Lemma add_task_run (net : Net) (task : Task) (st : State) :
  add_task net task st
  = (Return [("status", "task_added")],
     mkState (tasks st ++ [task]) (filter net (active_connections st))
       (trace st ++ Stored task
          :: pass_events net ("new_task:" ++ Py.repr_dict task)
               (active_connections st))).
Proof.
  unfold add_task, tasks_append. run_monad. rewrite broadcast_run. simpl.
  now rewrite <- app_assoc.
Qed.

Lemma startswith_app (p rest : string) : Py.startswith (p ++ rest) p = true.
Proof.
  unfold Py.startswith. induction p as [|c p IH]; simpl.
  - now destruct rest.
  - destruct (ascii_dec c c); [assumption | congruence].
Qed.

Lemma startswith_inv (p data : string) :
  Py.startswith data p = true -> exists rest, data = (p ++ rest)%string.
Proof.
  unfold Py.startswith. revert data.
  induction p as [|c p IH]; intros data H.
  - now exists data.
  - destruct data as [|d data]; simpl in H; [discriminate|].
    destruct (ascii_dec c d); [|discriminate]. subst d.
    destruct (IH _ H) as [rest ->]. now exists rest.
Qed.

Lemma slice_from_app (p rest : string) :
  Py.slice_from (String.length p) (p ++ rest) = rest.
Proof.
  induction p as [|c p IH]; simpl; [now destruct rest | assumption].
Qed.

Lemma truthy_false (s : string) : Py.truthy s = false <-> s = "".
Proof. destruct s; simpl; split; congruence. Qed.

Lemma truthy_true (s : string) : Py.truthy s = true <-> s <> "".
Proof. destruct s; simpl; split; congruence. Qed.

(** The loop body on a frame that carries a task. *)
Lemma on_text_task (net : Net) (rest : string) (st : State) :
  Py.strip rest <> "" ->
  let task : Task := [("id", Py.str_of_int (List.length (tasks st)));
                      ("content", Py.strip rest)] in
  on_text net ("add_task:" ++ rest) st
  = (Return tt,
     mkState (tasks st ++ [task]) (filter net (active_connections st))
       (trace st ++ Stored task
          :: pass_events net ("new_task:" ++ Py.repr_dict task)
               (active_connections st))).
Proof.
  intros H task. unfold on_text.
  rewrite startswith_app, slice_from_app.
  rewrite (proj2 (truthy_true _) H).
  unfold tasks_append. run_monad. rewrite broadcast_run. simpl.
  now rewrite <- app_assoc.
Qed.

Lemma on_text_blank (net : Net) (rest : string) (st : State) :
  Py.strip rest = "" -> on_text net ("add_task:" ++ rest) st = (Return tt, st).
Proof.
  intros H. unfold on_text.
  rewrite startswith_app, slice_from_app, H. reflexivity.
Qed.

Lemma on_text_message (net : Net) (data : string) (st : State) :
  Py.startswith data "add_task:" = false ->
  on_text net data st
  = (Return tt,
     mkState (tasks st) (filter net (active_connections st))
       (trace st ++ pass_events net ("message:" ++ data) (active_connections st))).
Proof.
  intros H. unfold on_text. rewrite H. apply broadcast_run.
Qed.

(** The loop body never raises, so the loop goes on to the next receive. *)
Lemma on_text_returns (net : Net) (data : string) (st : State) :
  exists st', on_text net data st = (Return tt, st').
Proof.
  destruct (Py.startswith data "add_task:") eqn:Hp.
  - destruct (startswith_inv _ _ Hp) as [rest ->].
    destruct (Py.truthy (Py.strip rest)) eqn:Ht.
    + eexists. apply on_text_task. now apply truthy_true.
    + eexists. apply on_text_blank. now apply truthy_false.
  - eexists. now apply on_text_message.
Qed.

Lemma resume_text (net : Net) (ws : WebSocket) (data : string)
    (inbox : list Received) (st : State) :
  resume net ws (Text data :: inbox) st
  = resume net ws inbox (snd (on_text net data st)).
Proof.
  unfold resume, try_except_disconnect. simpl. unfold bind.
  destruct (on_text_returns net data st) as [st' ->]. reflexivity.
Qed.

Lemma resume_nil (net : Net) (ws : WebSocket) (st : State) :
  resume net ws [] st = (Return Receiving, st).
Proof. reflexivity. Qed.

Lemma on_disconnect_run (net : Net) (ws : WebSocket) (st : State) :
  let unregistered := if Py.list_in ws (active_connections st)
                      then [Unregistered ws] else [] in
  let remaining := remove_first ws (active_connections st) in
  on_disconnect net ws st
  = (Return Closed,
     mkState (tasks st) (filter net remaining)
       (trace st ++ unregistered
          ++ pass_events net "A client disconnected" remaining)).
Proof.
  simpl. unfold on_disconnect. unfold bind at 1.
  destruct (Py.list_in ws (active_connections st)) eqn:Hin.
  - apply list_in_In in Hin. rewrite (disconnect_present _ _ Hin).
    run_monad. rewrite broadcast_run. simpl. now rewrite <- app_assoc.
  - apply list_in_false in Hin. rewrite (disconnect_absent _ _ Hin).
    run_monad. rewrite broadcast_run. simpl.
    now rewrite (remove_first_absent _ _ Hin).
Qed.

Lemma resume_disconnect (net : Net) (ws : WebSocket)
    (inbox : list Received) (st : State) :
  resume net ws (Disconnect :: inbox) st = on_disconnect net ws st.
Proof. reflexivity. Qed.

(** The whole handler is [connect] followed by the handling of its inbox,
    one receive at a time. *)
Lemma websocket_endpoint_steps (net : Net) (ws : WebSocket)
    (inbox : list Received) (st : State) :
  websocket_endpoint net ws inbox st
  = resume net ws inbox (exec (dispatch net (WS_open ws)) st).
Proof.
  unfold websocket_endpoint, exec, dispatch. unfold bind at 1.
  now rewrite connect_run.
Qed.

(** ** The server over a sequence of calls *)

Lemma dispatch_tasks (net : Net) (c : Call) (st : State) :
  tasks (exec (dispatch net c) st)
  = tasks st ++ match stored (List.length (tasks st)) c with
                | Some task => [task]
                | None => []
                end.
Proof.
  unfold exec. destruct c as [| task | ws | ws [data|]]; cbn [dispatch stored].
  - simpl. now rewrite app_nil_r.
  - unfold bind. now rewrite add_task_run.
  - rewrite connect_run. simpl. now rewrite app_nil_r.
  - unfold bind. rewrite resume_text, resume_nil.
    unfold add_task_content.
    destruct (Py.startswith data "add_task:") eqn:Hp.
    + destruct (startswith_inv _ _ Hp) as [rest ->].
      rewrite slice_from_app.
      destruct (Py.truthy (Py.strip rest)) eqn:Ht.
      * rewrite on_text_task; [reflexivity | now apply truthy_true].
      * rewrite on_text_blank; [simpl; now rewrite app_nil_r | now apply truthy_false].
    + rewrite (on_text_message _ _ _ Hp). simpl. now rewrite app_nil_r.
  - unfold bind. rewrite resume_disconnect.
    pose proof (on_disconnect_run net ws st) as H. simpl in H. rewrite H.
    simpl. now rewrite app_nil_r.
Qed.

Lemma run_tasks (calls : list (Net * Call)) (st : State) :
  tasks (run calls st) = tasks st ++ stored_by (List.length (tasks st)) calls.
Proof.
  revert st. induction calls as [|[net c] calls IH]; intros st; simpl.
  - now rewrite app_nil_r.
  - rewrite IH, dispatch_tasks.
    destruct (stored (List.length (tasks st)) c) as [task|].
    + rewrite length_app, <- app_assoc. simpl.
      now replace (List.length (tasks st) + 1) with (S (List.length (tasks st))) by lia.
    + now rewrite app_nil_r.
Qed.

Lemma stored_shift (k k' : nat) (c : Call) :
  creates c = true -> exists task, stored k' c = Some task.
Proof.
  unfold creates. destruct c as [| task | ws | ws [data|]]; simpl;
    try discriminate; eauto.
  destruct (Py.startswith data "add_task:" && Py.truthy (add_task_content data));
    [eauto | discriminate].
Qed.

Lemma stored_by_length (k : nat) (calls : list (Net * Call)) :
  forallb (fun nc => creates (snd nc)) calls = true ->
  List.length (stored_by k calls) = List.length calls.
Proof.
  revert k. induction calls as [|[net c] calls IH]; intros k H; simpl in *.
  - reflexivity.
  - apply andb_true_iff in H. destruct H as [Hc Hr].
    destruct (stored_shift 0 k c Hc) as [task ->]. simpl. now rewrite IH.
Qed.

(** A registry never holds a connection twice. *)
Lemma reachable_NoDup (st : State) :
  reachable st -> NoDup (active_connections st).
Proof.
  induction 1 as [|st net c _ IH Hadm]; [constructor|].
  unfold exec. destruct c as [| task | ws | ws [data|]]; cbn [dispatch].
  - assumption.
  - unfold bind. rewrite add_task_run. simpl. now apply NoDup_filter.
  - rewrite connect_run. simpl. simpl in Hadm.
    apply NoDup_app; [assumption | repeat constructor; simpl; tauto |].
    intros x Hx [E | []]. subst. contradiction.
  - unfold bind. rewrite resume_text, resume_nil.
    destruct (Py.startswith data "add_task:") eqn:Hp.
    + destruct (startswith_inv _ _ Hp) as [rest ->].
      destruct (Py.truthy (Py.strip rest)) eqn:Ht.
      * rewrite on_text_task; [|now apply truthy_true]. simpl. now apply NoDup_filter.
      * rewrite on_text_blank; [assumption | now apply truthy_false].
    + rewrite (on_text_message _ _ _ Hp). simpl. now apply NoDup_filter.
  - unfold bind. rewrite resume_disconnect.
    pose proof (on_disconnect_run net ws st) as H. simpl in H. rewrite H.
    simpl. apply NoDup_filter. now apply NoDup_remove_first.
Qed.

Lemma pass_events_skip (net : Net) (msg : string) (l : list WebSocket)
    (ws : WebSocket) :
  ~ In ws l ->
  forallb (fun e => negb (is_send_to ws e)) (pass_events net msg l) = true.
Proof.
  intros H. unfold pass_events. rewrite forallb_app. apply andb_true_iff. split.
  - apply forallb_forall. intros e He. apply in_map_iff in He.
    destruct He as (c & <- & Hc). unfold attempt.
    destruct (net c); simpl; apply negb_true_iff, Nat.eqb_neq; congruence.
  - apply forallb_forall. intros e He. apply in_map_iff in He.
    destruct He as (c & <- & _). reflexivity.
Qed.

(** ** The properties of the specification *)

(** C1. POST /tasks: for every task mapping, [add_task] appends that very
    task to the store, then broadcasts the one string "new_task:" followed by
    the string representation of the task to every connection registered at
    that time, and then returns the response with status "task_added". *)
Theorem add_task_appends_broadcasts_responds
    (net : Net) (task : Task) (st : State) :
  exists st',
    add_task net task st = (Return [("status", "task_added")], st')
    /\ tasks st' = tasks st ++ [task]
    /\ trace st'
       = trace st ++ [Stored task]
         ++ map (attempt net ("new_task:" ++ Py.repr_dict task))
                (active_connections st)
         ++ map Unregistered (failing net (active_connections st)).
Proof.
  eexists. rewrite add_task_run. simpl. repeat split; reflexivity.
Qed.

(** C2. A frame "add_task:" followed by text that is not empty once trimmed:
    the handler appends the task whose id is the decimal size of the store
    before the insertion and whose content is the trimmed text, and
    broadcasts "new_task:" followed by the representation of that task to
    all registered connections, the sender among them. *)
Theorem add_task_frame_stores_and_broadcasts
    (net : Net) (ws : WebSocket) (rest : string) (st : State) :
  Py.strip rest <> "" ->
  let task : Task := [("id", Py.str_of_int (List.length (tasks st)));
                      ("content", Py.strip rest)] in
  let sends := map (attempt net ("new_task:" ++ Py.repr_dict task))
                   (active_connections st) in
  exists st',
    resume net ws [Text ("add_task:" ++ rest)] st = (Return Receiving, st')
    /\ tasks st' = tasks st ++ [task]
    /\ trace st'
       = trace st ++ [Stored task] ++ sends
         ++ map Unregistered (failing net (active_connections st))
    /\ (In ws (active_connections st) ->
        In (attempt net ("new_task:" ++ Py.repr_dict task) ws) sends).
Proof.
  intros H task sends. eexists.
  rewrite resume_text, resume_nil, (on_text_task net rest st H). simpl.
  repeat split; try reflexivity.
  intros Hin. apply in_map. exact Hin.
Qed.


(** C6. A frame that does not start with "add_task:": the handler
    broadcasts "message:" followed by the frame as it came to all registered
    connections, the sender among them, and the store is unchanged. *)
Theorem other_frame_is_relayed
    (net : Net) (ws : WebSocket) (data : string) (st : State) :
  (forall rest, data <> ("add_task:" ++ rest)%string) ->
  let sends := map (attempt net ("message:" ++ data)) (active_connections st) in
  exists st',
    resume net ws [Text data] st = (Return Receiving, st')
    /\ tasks st' = tasks st
    /\ trace st'
       = trace st ++ sends
         ++ map Unregistered (failing net (active_connections st))
    /\ (In ws (active_connections st) ->
        In (attempt net ("message:" ++ data) ws) sends).
Proof.
  intros H sends.
  assert (Hp : Py.startswith data "add_task:" = false).
  { destruct (Py.startswith data "add_task:") eqn:E; [|reflexivity].
    destruct (startswith_inv _ _ E) as [rest Hrest]. now elim (H rest). }
  eexists. rewrite resume_text, resume_nil, (on_text_message net data st Hp).
  simpl. repeat split; try reflexivity.
  intros Hin. apply in_map. exact Hin.
Qed.

(** C7. A frame "add_task:" followed by nothing or by whitespace only: the
    handler changes neither the store nor the registry, sends nothing to
    anyone, the sender included, and goes on to the next receive. *)
Theorem blank_add_task_frame_is_ignored
    (net : Net) (ws : WebSocket) (rest : string) (st : State) :
  Py.strip rest = "" ->
  resume net ws [Text ("add_task:" ++ rest)] st = (Return Receiving, st).
Proof.
  intros H. now rewrite resume_text, resume_nil, (on_text_blank net rest st H).
Qed.

(** C8. After N task-creating calls (POST /tasks or "add_task:" frames with
    text), in any mix and from a store of K tasks, the store holds K+N
    tasks: the K it had, then the new ones in call order.  And whatever the
    calls, the store keeps what it had, in place. *)
Theorem store_grows_in_call_order (calls : list (Net * Call)) (st : State) :
  forallb (fun nc => creates (snd nc)) calls = true ->
  tasks (run calls st) = tasks st ++ stored_by (List.length (tasks st)) calls
  /\ List.length (tasks (run calls st))
     = List.length (tasks st) + List.length calls
  /\ forall others : list (Net * Call),
       exists more, tasks (run others st) = tasks st ++ more.
Proof.
  intros H. split; [apply run_tasks|]. split.
  - rewrite run_tasks, length_app, stored_by_length; [reflexivity | exact H].
  - intros others. eexists. apply run_tasks.
Qed.

(** C9. [disconnect] never raises; on a connection that is in the registry
    it removes it (its first entry, the rest staying in order); on one that
    is not, the state is left as it was. *)
Theorem disconnect_removes_if_present (ws : WebSocket) (st : State) :
  (exists st', disconnect ws st = (Return tt, st'))
  /\ (In ws (active_connections st) ->
      exists before after,
        active_connections st = before ++ ws :: after
        /\ ~ In ws before
        /\ disconnect ws st
           = (Return tt,
              mkState (tasks st) (before ++ after)
                      (trace st ++ [Unregistered ws])))
  /\ (~ In ws (active_connections st) -> disconnect ws st = (Return tt, st)).
Proof.
  split; [|split].
  - destruct (in_dec Nat.eq_dec ws (active_connections st)) as [H | H].
    + eexists. now apply disconnect_present.
    + eexists. now apply disconnect_absent.
  - intros H. destruct (remove_first_split _ _ H) as (l1 & l2 & E & N & R).
    exists l1, l2. rewrite (disconnect_present _ _ H), R. auto.
  - apply disconnect_absent.
Qed.

(** ** The theorems at concrete inputs *)

Lemma add_task_frame_stores_and_broadcasts_witness :
  Py.strip "  write report  " <> ""
  /\ exists st',
       resume all_up 1 [Text "add_task:  write report  "] (mkState [] [1; 2] [])
       = (Return Receiving, st')
       /\ tasks st' = [[("id", "0"); ("content", "write report")]].
Proof.
  assert (H : Py.strip "  write report  " <> "") by (vm_compute; discriminate).
  split; [exact H|].
  destruct (add_task_frame_stores_and_broadcasts all_up 1 "  write report  "
              (mkState [] [1; 2] []) H) as (st' & E & T & _).
  exists st'. split; [exact E | exact T].
Defined.

Lemma other_frame_is_relayed_witness :
  (forall rest, "hello everyone" <> ("add_task:" ++ rest)%string)
  /\ exists st',
       resume all_up 1 [Text "hello everyone"] (mkState [] [1; 2] [])
       = (Return Receiving, st')
       /\ tasks st' = [].
Proof.
  assert (H : forall rest, "hello everyone" <> ("add_task:" ++ rest)%string)
    by (intros rest; simpl; discriminate).
  split; [exact H|].
  destruct (other_frame_is_relayed all_up 1 "hello everyone"
              (mkState [] [1; 2] []) H) as (st' & E & T & _).
  exists st'. split; [exact E | exact T].
Defined.

Lemma blank_add_task_frame_is_ignored_witness :
  Py.strip "   " = ""
  /\ resume all_up 1 [Text "add_task:   "] (mkState [] [1; 2] [])
     = (Return Receiving, mkState [] [1; 2] []).
Proof.
  split; [reflexivity|].
  apply (blank_add_task_frame_is_ignored all_up 1 "   " (mkState [] [1; 2] [])).
  reflexivity.
Defined.

Lemma store_grows_in_call_order_witness :
  let calls := [(all_up, POST_tasks [("name", "buy milk")]);
                (all_up, WS_receive 1 (Text "add_task: x"))] in
  let st := mkState [[("k", "v")]] [1] [] in
  forallb (fun nc => creates (snd nc)) calls = true
  /\ tasks (run calls st)
     = [[("k", "v")]; [("name", "buy milk")]; [("id", "2"); ("content", "x")]]
  /\ List.length (tasks (run calls st)) = 3.
Proof.
  intros calls st.
  assert (H : forallb (fun nc => creates (snd nc)) calls = true) by reflexivity.
  split; [exact H|].
  destruct (store_grows_in_call_order calls st H) as (T & L & _).
  split; [exact T | exact L].
Defined.

(** ** Further properties of the handlers *)

(** What one call does to the state, case by case. *)
Lemma dispatch_effect (net : Net) (c : Call) (st : State) :
  let regs := active_connections st in
  dispatch net c st = (Return tt, exec (dispatch net c) st)
  /\ (exec (dispatch net c) st = st
      \/ (exists ws, c = WS_open ws
          /\ exec (dispatch net c) st
             = mkState (tasks st) (regs ++ [ws])
                 (trace st ++ [Accepted ws; Registered ws]))
      \/ (exists task, stored (List.length (tasks st)) c = Some task
          /\ exec (dispatch net c) st
             = mkState (tasks st ++ [task]) (filter net regs)
                 (trace st ++ Stored task
                    :: pass_events net ("new_task:" ++ Py.repr_dict task) regs))
      \/ (exists ws data, c = WS_receive ws (Text data)
          /\ Py.startswith data "add_task:" = false
          /\ exec (dispatch net c) st
             = mkState (tasks st) (filter net regs)
                 (trace st ++ pass_events net ("message:" ++ data) regs))
      \/ (exists ws, c = WS_receive ws Disconnect
          /\ exec (dispatch net c) st
             = mkState (tasks st) (filter net (remove_first ws regs))
                 (trace st
                  ++ (if Py.list_in ws regs then [Unregistered ws] else [])
                  ++ pass_events net "A client disconnected"
                       (remove_first ws regs)))).
Proof.
  simpl. unfold exec. destruct c as [| task | ws | ws [data|]]; cbn [dispatch].
  - split; [reflexivity | left; reflexivity].
  - unfold bind. rewrite add_task_run. split; [reflexivity|].
    right. right. left. exists task. split; reflexivity.
  - rewrite connect_run. split; [reflexivity|].
    right. left. exists ws. split; reflexivity.
  - unfold bind. rewrite resume_text, resume_nil.
    destruct (Py.startswith data "add_task:") eqn:Hp.
    + destruct (startswith_inv _ _ Hp) as [rest Hrest]. subst data.
      destruct (Py.truthy (Py.strip rest)) eqn:Ht.
      * rewrite on_text_task; [|now apply truthy_true]. split; [reflexivity|].
        right. right. left. eexists. split; [|reflexivity].
        cbn [stored]. unfold add_task_content.
        rewrite startswith_app, slice_from_app, Ht. reflexivity.
      * rewrite on_text_blank; [|now apply truthy_false].
        split; [reflexivity | left; reflexivity].
    + rewrite (on_text_message _ _ _ Hp). split; [reflexivity|].
      right. right. right. left. exists ws, data. auto.
  - unfold bind. rewrite resume_disconnect.
    pose proof (on_disconnect_run net ws st) as H. simpl in H. rewrite H.
    split; [reflexivity|].
    right. right. right. right. exists ws. split; reflexivity.
Qed.

Lemma run_app (calls more : list (Net * Call)) (st : State) :
  run (calls ++ more) st = run more (run calls st).
Proof.
  revert st. induction calls as [|[net c] calls IH]; intros st; simpl;
    [reflexivity | apply IH].
Qed.


Lemma remove_first_app_present (x : WebSocket) (l l' : list WebSocket) :
  In x l -> remove_first x (l ++ l') = remove_first x l ++ l'.
Proof.
  induction l as [|y l IH]; simpl; [tauto|].
  intros H. destruct (Nat.eqb_spec y x) as [E | N]; [reflexivity|].
  simpl. f_equal. apply IH. destruct H; [contradiction | assumption].
Qed.

Lemma remove_first_app_absent (x : WebSocket) (l : list WebSocket) :
  ~ In x l -> remove_first x (l ++ [x]) = l.
Proof.
  induction l as [|y l IH]; simpl; intros H.
  - now rewrite Nat.eqb_refl.
  - destruct (Nat.eqb_spec y x) as [E | N]; [tauto|].
    f_equal. apply IH. tauto.
Qed.

Lemma failing_filter (net : Net) (l : list WebSocket) :
  failing net (filter net l) = [].
Proof.
  unfold failing. induction l as [|a l IH]; simpl; [reflexivity|].
  destruct (net a) eqn:Ha; simpl; [rewrite Ha; simpl|]; exact IH.
Qed.

Lemma attempt_filter (net : Net) (msg : string) (l : list WebSocket) :
  map (attempt net msg) (filter net l)
  = map (fun ws => Sent ws msg) (filter net l).
Proof.
  induction l as [|a l IH]; simpl; [reflexivity|].
  destruct (net a) eqn:Ha; simpl; [|exact IH].
  unfold attempt at 1. rewrite Ha. now f_equal.
Qed.

Lemma pass_events_filter (net : Net) (msg : string) (l : list WebSocket) :
  pass_events net msg (filter net l)
  = map (fun ws => Sent ws msg) (filter net l).
Proof.
  unfold pass_events. rewrite failing_filter, attempt_filter.
  apply app_nil_r.
Qed.

(** X1. GET /tasks reads the store without changing anything, and what it
    returns after any sequence of calls is the store from before followed by
    every task those calls stored, in call order. *)
Theorem get_tasks_returns_every_stored_task
    (calls : list (Net * Call)) (st : State) :
  get_tasks (run calls st)
  = (Return [("tasks", tasks st ++ stored_by (List.length (tasks st)) calls)],
     run calls st).
Proof.
  unfold get_tasks. run_monad. now rewrite run_tasks.
Qed.


(** X5. A pass of [broadcast] keeps the store and leaves in the registry
    exactly the connections whose send succeeded, in their order; a second
    pass with the channels unchanged then delivers to all of them and
    removes none. *)
Theorem second_pass_removes_nothing (net : Net) (m1 m2 : string) (st : State) :
  let regs := active_connections st in
  exec (broadcast net m1) st
  = mkState (tasks st) (filter net regs) (trace st ++ pass_events net m1 regs)
  /\ exec (broadcast net m1 ;; broadcast net m2) st
     = mkState (tasks st) (filter net regs)
         (trace st ++ pass_events net m1 regs
          ++ map (fun ws => Sent ws m2) (filter net regs)).
Proof.
  cbv zeta. unfold exec, bind. rewrite !broadcast_run.
  cbn [snd tasks active_connections trace]. split; [reflexivity|].
  f_equal.
  - clear. induction (active_connections st) as [|a l IH]; simpl; [reflexivity|].
    destruct (net a) eqn:Ha; simpl; [rewrite Ha; now f_equal | exact IH].
  - now rewrite pass_events_filter, <- app_assoc.
Qed.

(** ** What the server keeps true from its start *)

Lemma server_frame_new_task (x : string) :
  server_frame ("new_task:" ++ x) = true.
Proof. unfold server_frame. now rewrite startswith_app. Qed.

Lemma server_frame_message (x : string) :
  server_frame ("message:" ++ x) = true.
Proof.
  unfold server_frame. rewrite (startswith_app "message:" x).
  now rewrite orb_true_r.
Qed.

Lemma pass_events_frames (net : Net) (msg : string) (l : list WebSocket) :
  server_frame msg = true ->
  forallb carries_server_frame (pass_events net msg l) = true.
Proof.
  intros H. unfold pass_events. rewrite forallb_app. apply andb_true_iff. split;
    apply forallb_forall; intros e He; apply in_map_iff in He;
    destruct He as (c & <- & _); [|reflexivity].
  unfold attempt. now destruct (net c).
Qed.

Lemma registered_in_app (tr new : list Event) :
  registered_in (tr ++ new) = registered_in tr ++ registered_in new.
Proof.
  induction tr as [|e tr IH]; simpl; [reflexivity|].
  destruct e; simpl; now rewrite IH.
Qed.

Lemma registered_in_pass (net : Net) (msg : string) (l : list WebSocket) :
  registered_in (pass_events net msg l) = [].
Proof.
  unfold pass_events. rewrite registered_in_app.
  assert (H1 : registered_in (map (attempt net msg) l) = []).
  { induction l as [|a l IH]; simpl; [reflexivity|].
    unfold attempt at 1. now destruct (net a). }
  assert (H2 : forall d, registered_in (map Unregistered d) = []).
  { induction d as [|a d IH]; simpl; auto. }
  now rewrite H1, H2.
Qed.

Lemma well_addressed_app (known : list WebSocket) (tr new : list Event) :
  well_addressed known (tr ++ new)
  = well_addressed known tr
    && well_addressed (rev (registered_in tr) ++ known) new.
Proof.
  revert known. induction tr as [|e tr IH]; intros known; simpl; [reflexivity|].
  destruct e; simpl; rewrite IH; try reflexivity.
  - now rewrite <- app_assoc.
  - now rewrite andb_assoc.
  - now rewrite andb_assoc.
Qed.

Lemma well_addressed_pass (known : list WebSocket) (net : Net) (msg : string)
    (l : list WebSocket) :
  incl l known -> well_addressed known (pass_events net msg l) = true.
Proof.
  intros H. unfold pass_events. rewrite well_addressed_app.
  apply andb_true_iff. split.
  - induction l as [|a l IH]; simpl; [reflexivity|].
    assert (Ha : Py.list_in a known = true).
    { apply list_in_In, H. simpl. auto. }
    unfold attempt at 1. destruct (net a); simpl; rewrite Ha; simpl;
      apply IH; intros x Hx; apply H; simpl; auto.
  - generalize (rev (registered_in (map (attempt net msg) l)) ++ known).
    intros k. induction (failing net l) as [|a d IH]; simpl; auto.
Qed.

Lemma well_addressed_split (known : list WebSocket) (pre post : list Event)
    (e : Event) (ws : WebSocket) :
  well_addressed known (pre ++ e :: post) = true ->
  is_send_to ws e = true ->
  In ws known \/ In (Registered ws) pre.
Proof.
  revert known. induction pre as [|x pre IH]; intros known H He.
  - left. simpl in H. destruct e; simpl in He; try discriminate;
      apply Nat.eqb_eq in He; subst; apply andb_true_iff in H;
      destruct H as [H _]; now apply list_in_In.
  - simpl in H. destruct x; simpl in H;
      try (destruct (IH _ H He) as [K | K]; [left; exact K | right; simpl; auto]).
    + destruct (IH _ H He) as [[K | K] | K].
      * subst. right. simpl. auto.
      * left. exact K.
      * right. simpl. auto.
    + apply andb_true_iff in H. destruct H as [_ H].
      destruct (IH _ H He) as [K | K]; [left; exact K | right; simpl; auto].
    + apply andb_true_iff in H. destruct H as [_ H].
      destruct (IH _ H He) as [K | K]; [left; exact K | right; simpl; auto].
Qed.

Lemma reachable_well_addressed (st : State) :
  reachable st ->
  well_addressed [] (trace st) = true
  /\ incl (active_connections st) (registered_in (trace st)).
Proof.
  induction 1 as [|st net c _ [IHw IHr] _].
  - split; [reflexivity | intros x []].
  - assert (Hk : incl (active_connections st)
                   (rev (registered_in (trace st)) ++ [])).
    { intros x Hx. rewrite app_nil_r. apply in_rev. rewrite rev_involutive.
      now apply IHr. }
    destruct (dispatch_effect net c st) as [_ H]. cbv zeta in H.
    destruct H as [E | [(ws & _ & E) | [(task & _ & E)
                  | [(ws & data & _ & _ & E) | (ws & _ & E)]]]]; rewrite E;
      cbn [trace active_connections].
    + now split.
    + split.
      * rewrite well_addressed_app, IHw. reflexivity.
      * rewrite registered_in_app. simpl. intros x Hx.
        apply in_app_or in Hx. apply in_or_app.
        destruct Hx as [Hx | Hx]; [left; now apply IHr | right; exact Hx].
    + split.
      * rewrite well_addressed_app, IHw. simpl.
        now apply well_addressed_pass.
      * rewrite registered_in_app. intros x Hx. apply in_or_app. left.
        apply IHr. apply filter_In in Hx. tauto.
    + split.
      * rewrite well_addressed_app, IHw. simpl.
        now apply well_addressed_pass.
      * rewrite registered_in_app. intros x Hx. apply in_or_app. left.
        apply IHr. apply filter_In in Hx. tauto.
    + assert (Hsub : incl (remove_first ws (active_connections st))
                       (active_connections st)).
      { intros x Hx. eapply In_remove_first, Hx. }
      split.
      * rewrite well_addressed_app, IHw. simpl.
        destruct (Py.list_in ws (active_connections st)); simpl;
          apply well_addressed_pass; intros x Hx; apply Hk, Hsub, Hx.
      * rewrite registered_in_app. intros x Hx. apply in_or_app. left.
        apply IHr, Hsub. apply filter_In in Hx. tauto.
Qed.

(** X6. From its start the server only ever sends frames of three forms:
    "new_task:" followed by text, "message:" followed by text, and
    "A client disconnected". *)
Theorem server_sends_only_three_forms (st : State) :
  reachable st ->
  forall ws msg,
    In (Sent ws msg) (trace st) \/ In (SendFailed ws msg) (trace st) ->
    (exists x, msg = ("new_task:" ++ x)%string)
    \/ (exists x, msg = ("message:" ++ x)%string)
    \/ msg = "A client disconnected".
Proof.
  intros Hr.
  assert (Hall : forallb carries_server_frame (trace st) = true).
  { induction Hr as [|st net c _ IH _]; [reflexivity|].
    destruct (dispatch_effect net c st) as [_ H]. cbv zeta in H.
    destruct H as [E | [(ws & _ & E) | [(task & _ & E)
                  | [(ws & data & _ & _ & E) | (ws & _ & E)]]]]; rewrite E;
      cbn [trace]; try assumption; rewrite forallb_app, IH; simpl.
    - reflexivity.
    - apply pass_events_frames, server_frame_new_task.
    - apply pass_events_frames, server_frame_message.
    - rewrite forallb_app.
      rewrite (pass_events_frames net "A client disconnected" _ eq_refl).
      now destruct (Py.list_in ws (active_connections st)). }
  intros ws msg H.
  assert (Hm : server_frame msg = true).
  { rewrite forallb_forall in Hall.
    destruct H as [H | H]; apply Hall in H; exact H. }
  unfold server_frame in Hm.
  apply orb_true_iff in Hm. destruct Hm as [Hm | Hm].
  - apply orb_true_iff in Hm. destruct Hm as [Hm | Hm].
    + left. now apply startswith_inv.
    + right. left. now apply startswith_inv.
  - right. right. now apply String.eqb_eq.
Qed.

(** X7. From its start the server sends to a connection only after it has
    accepted and registered it: every send in the trace comes after the
    registration of its connection. *)
Theorem server_sends_only_to_registered (st : State) :
  reachable st ->
  forall pre e post ws,
    trace st = pre ++ e :: post ->
    is_send_to ws e = true ->
    In (Registered ws) pre.
Proof.
  intros Hr pre e post ws Ht He.
  destruct (reachable_well_addressed st Hr) as [Hw _].
  rewrite Ht in Hw.
  destruct (well_addressed_split [] pre post e ws Hw He) as [[] | K].
  exact K.
Qed.

(** ** Identifiers and contents of the tasks made from frames *)

Lemma to_uint_nonnil (n : nat) : Nat.to_uint n <> Decimal.Nil.
Proof.
  rewrite <- (DecimalNat.Unsigned.of_to n) at 1.
  rewrite DecimalNat.Unsigned.to_of. apply DecimalFacts.unorm_nonnil.
Qed.

(** [str] of an [int] can be read back. *)
Lemma str_of_int_read_back (n : nat) :
  option_map Nat.of_uint (NilZero.uint_of_string (Py.str_of_int n)) = Some n.
Proof.
  unfold Py.str_of_int. rewrite NilZero.usu by apply to_uint_nonnil.
  simpl. now rewrite DecimalNat.Unsigned.of_to.
Qed.

Lemma str_of_int_inj (a b : nat) :
  Py.str_of_int a = Py.str_of_int b -> a = b.
Proof.
  intros H. pose proof (str_of_int_read_back a) as Ha.
  rewrite H, str_of_int_read_back in Ha. congruence.
Qed.

Lemma stored_by_frames (calls : list (Net * Call)) (k i : nat) (t : Task) :
  forallb (fun nc => negb (is_post (snd nc))) calls = true ->
  nth_error (stored_by k calls) i = Some t ->
  exists content,
    t = [("id", Py.str_of_int (k + i)); ("content", content)]
    /\ content <> "".
Proof.
  revert k i. induction calls as [|[net c] calls IH]; intros k i H Hn.
  - destruct i; discriminate.
  - simpl in H. apply andb_true_iff in H. destruct H as [Hc Hr].
    simpl in Hn. destruct c as [| task | ws | ws [data|]];
      try discriminate Hc; cbn [stored] in Hn; try (now apply IH).
    destruct (Py.startswith data "add_task:" && Py.truthy (add_task_content data))
      eqn:Hd; [|now apply IH].
    destruct i as [|i].
    + simpl in Hn. injection Hn as <-. exists (add_task_content data).
      rewrite Nat.add_0_r. split; [reflexivity|].
      apply andb_true_iff in Hd. now apply truthy_true.
    + simpl in Hn. destruct (IH (S k) i Hr Hn) as [content Hc'].
      exists content. now replace (k + S i) with (S k + i) by lia.
Qed.

Lemma string_app_assoc (a b c : string) :
  ((a ++ b) ++ c = a ++ (b ++ c))%string.
Proof. induction a as [|x a IH]; simpl; [reflexivity | now rewrite IH]. Qed.

Lemma lstrip_split (s : string) :
  exists lead,
    s = (lead ++ Py.lstrip s)%string
    /\ all_space lead = true
    /\ starts_with_space (Py.lstrip s) = false.
Proof.
  induction s as [|c s (lead & E & A & N)]; simpl.
  - exists "". auto.
  - destruct (Py.is_space c) eqn:Hc.
    + exists (String c lead). simpl. rewrite Hc, A, <- E. auto.
    + exists "". simpl. auto.
Qed.

Lemma rstrip_split (t : string) :
  exists trail,
    t = (Py.rstrip t ++ trail)%string
    /\ all_space trail = true
    /\ ends_with_space (Py.rstrip t) = false.
Proof.
  induction t as [|c t (trail & E & A & N)]; simpl.
  - exists "". auto.
  - destruct (Py.rstrip t) as [|d r] eqn:Hr.
    + simpl in E. subst trail. destruct (Py.is_space c) eqn:Hc.
      * exists (String c t). simpl. rewrite Hc, A. auto.
      * exists t. simpl. rewrite Hc. auto.
    + exists trail. split; [simpl; f_equal; exact E | auto].
Qed.

Lemma rstrip_head (t : string) :
  starts_with_space t = false -> starts_with_space (Py.rstrip t) = false.
Proof.
  destruct t as [|c t]; simpl; [reflexivity|]. intros Hc.
  destruct (Py.rstrip t); [rewrite Hc|]; simpl; auto.
Qed.

(** [strip] takes whitespace, and only whitespace, off both ends. *)
Lemma strip_split (s : string) :
  exists lead trail,
    s = (lead ++ Py.strip s ++ trail)%string
    /\ all_space lead = true /\ all_space trail = true
    /\ starts_with_space (Py.strip s) = false
    /\ ends_with_space (Py.strip s) = false.
Proof.
  destruct (lstrip_split s) as (lead & E1 & A1 & N1).
  destruct (rstrip_split (Py.lstrip s)) as (trail & E2 & A2 & N2).
  exists lead, trail. unfold Py.strip. rewrite <- E2.
  repeat split; auto. now apply rstrip_head.
Qed.

Lemma repr_char_plain (quote c : ascii) :
  plain c = true -> quote = Py.squote \/ quote = Py.dquote ->
  Py.repr_char quote c = String c "".
Proof.
  unfold plain, Py.repr_char. intros H Hq.
  repeat (apply andb_true_iff in H; destruct H as [H ?]).
  apply Nat.leb_le in H. apply Nat.ltb_lt in H3.
  apply negb_true_iff in H0, H1, H2.
  assert (Hcq : Ascii.eqb c quote = false) by (destruct Hq; subst; assumption).
  rewrite Hcq, H0. simpl.
  destruct (Nat.eqb_spec (nat_of_ascii c) 9); [lia|].
  destruct (Nat.eqb_spec (nat_of_ascii c) 10); [lia|].
  destruct (Nat.eqb_spec (nat_of_ascii c) 13); [lia|].
  destruct (Nat.ltb_spec (nat_of_ascii c) 32); [lia|].
  destruct (Nat.eqb_spec (nat_of_ascii c) 127); [lia|].
  simpl. destruct (Nat.ltb_spec (nat_of_ascii c) 127); [reflexivity | lia].
Qed.

Lemma repr_str_plain (s : string) :
  all_plain s = true -> Py.repr_str s = ("'" ++ s ++ "'")%string.
Proof.
  intros H. unfold Py.repr_str.
  assert (Hc : Py.contains Py.squote s = false).
  { induction s as [|c s IH]; cbn [Py.contains all_plain] in *; [reflexivity|].
    apply andb_true_iff in H. destruct H as [Hp Hs]. rewrite (IH Hs).
    unfold plain in Hp.
    apply andb_true_iff in Hp. destruct Hp as [Hp _].
    apply andb_true_iff in Hp. destruct Hp as [Hp _].
    apply andb_true_iff in Hp. destruct Hp as [_ Hsq].
    apply negb_true_iff in Hsq. rewrite Ascii.eqb_sym, Hsq. reflexivity. }
  assert (Hr : Py.repr_chars Py.squote s = s).
  { clear Hc.
    induction s as [|c s IH]; cbn [Py.repr_chars all_plain] in *; [reflexivity|].
    apply andb_true_iff in H. destruct H as [Hp Hs].
    rewrite repr_char_plain by (auto). simpl. now rewrite IH. }
  rewrite Hc. cbv zeta. cbn [andb]. rewrite Hr. reflexivity.
Qed.

Lemma str_of_int_plain (n : nat) : all_plain (Py.str_of_int n) = true.
Proof.
  unfold Py.str_of_int.
  assert (H : forall d, all_plain (NilEmpty.string_of_uint d) = true).
  { induction d; simpl; auto. }
  destruct (Nat.to_uint n); try apply H. reflexivity.
Qed.

Lemma run_nth_new (calls : list (Net * Call)) (st : State) (i : nat) :
  nth_error (tasks (run calls st)) (List.length (tasks st) + i)
  = nth_error (stored_by (List.length (tasks st)) calls) i.
Proof.
  rewrite run_tasks, nth_error_app2 by lia. f_equal. lia.
Qed.

(** X8. Without POST calls, every task that a sequence of calls adds to the
    store has exactly the keys id and content, its id is the decimal of its
    own position in the store, and its content is not empty. *)
Theorem frame_task_id_is_its_position
    (calls : list (Net * Call)) (st : State) (i : nat) (t : Task) :
  forallb (fun nc => negb (is_post (snd nc))) calls = true ->
  nth_error (tasks (run calls st)) (List.length (tasks st) + i) = Some t ->
  exists content,
    t = [("id", Py.str_of_int (List.length (tasks st) + i));
         ("content", content)]
    /\ content <> "".
Proof.
  intros H Hn. rewrite run_nth_new in Hn. now apply (stored_by_frames calls).
Qed.

(** X9. Without POST calls, two tasks added at different positions have
    different ids, and the id of each reads back as its position. *)
Theorem frame_task_ids_are_distinct
    (calls : list (Net * Call)) (st : State) (i j : nat) (ti tj : Task) :
  forallb (fun nc => negb (is_post (snd nc))) calls = true ->
  nth_error (tasks (run calls st)) (List.length (tasks st) + i) = Some ti ->
  nth_error (tasks (run calls st)) (List.length (tasks st) + j) = Some tj ->
  i <> j ->
  exists idi idj ci cj,
    ti = [("id", idi); ("content", ci)]
    /\ tj = [("id", idj); ("content", cj)]
    /\ idi <> idj
    /\ option_map Nat.of_uint (NilZero.uint_of_string idi)
       = Some (List.length (tasks st) + i)
    /\ option_map Nat.of_uint (NilZero.uint_of_string idj)
       = Some (List.length (tasks st) + j).
Proof.
  intros H Hi Hj Hij. rewrite run_nth_new in Hi, Hj.
  destruct (stored_by_frames calls _ _ _ H Hi) as (ci & -> & _).
  destruct (stored_by_frames calls _ _ _ H Hj) as (cj & -> & _).
  eexists _, _, ci, cj. repeat split; try apply str_of_int_read_back.
  intros E. apply str_of_int_inj in E. lia.
Qed.

(** X10. The content stored for an "add_task:" frame is the text after the
    tag without the whitespace at its two ends: the text is that content
    between two runs of whitespace, and the content neither starts nor ends
    with whitespace. *)
Theorem frame_task_content_is_trimmed
    (net : Net) (ws : WebSocket) (rest : string) (st : State) :
  Py.strip rest <> "" ->
  exists st' content lead trail,
    resume net ws [Text ("add_task:" ++ rest)] st = (Return Receiving, st')
    /\ tasks st'
       = tasks st ++ [[("id", Py.str_of_int (List.length (tasks st)));
                       ("content", content)]]
    /\ rest = (lead ++ content ++ trail)%string
    /\ all_space lead = true /\ all_space trail = true
    /\ starts_with_space content = false
    /\ ends_with_space content = false.
Proof.
  intros H. destruct (strip_split rest) as (lead & trail & E & A1 & A2 & N1 & N2).
  eexists _, (Py.strip rest), lead, trail.
  rewrite resume_text, resume_nil, (on_text_task net rest st H). simpl.
  repeat split; auto.
Qed.

Lemma repr_dict_plain (d : Py.Dict) :
  all_plain_dict d = true ->
  Py.repr_dict d = ("{" ++ Py.join ", " (map quoted_item d) ++ "}")%string.
Proof.
  intros H. unfold Py.repr_dict.
  assert (Hm : map Py.repr_item d = map quoted_item d).
  { induction d as [|[k v] d IH]; [reflexivity|].
    simpl in H. apply andb_true_iff in H. destruct H as [Hkv Hd].
    apply andb_true_iff in Hkv. destruct Hkv as [Hk Hv].
    cbn [map]. rewrite (IH Hd). f_equal.
    unfold Py.repr_item, quoted_item. simpl fst. simpl snd.
    rewrite (repr_str_plain k Hk), (repr_str_plain v Hv).
    simpl. f_equal. now rewrite !string_app_assoc. }
  now rewrite Hm.
Qed.

(** X12. For a POST whose keys and values are made of printable ASCII
    characters other than the quotes and the backslash, the frame delivered
    to every registered connection whose channel is up is "new_task:" and,
    between braces, the items as 'key': 'value', separated by a comma and a
    space, in the order of the mapping. *)
Theorem add_task_frame_of_plain_task
    (net : Net) (task : Task) (st : State) (c : WebSocket) :
  all_plain_dict task = true ->
  In c (active_connections st) ->
  net c = true ->
  In (Sent c ("new_task:{" ++ Py.join ", " (map quoted_item task) ++ "}"))
     (trace (exec (add_task net task) st)).
Proof.
  intros Hp Hc Hup. unfold exec. rewrite add_task_run. cbn [snd trace].
  apply in_or_app. right. right. unfold pass_events.
  apply in_or_app. left. apply in_map_iff. exists c. split; [|exact Hc].
  unfold attempt. rewrite Hup, (repr_dict_plain task Hp). reflexivity.
Qed.

(** X13. For an "add_task:" frame whose trimmed text is made of such
    characters, the frame delivered is
    new_task:{'id': 'N', 'content': 'TEXT'} with N the size of the store
    before and TEXT the trimmed text. *)
Theorem add_task_frame_of_plain_content
    (net : Net) (ws : WebSocket) (rest : string) (st : State) (c : WebSocket) :
  Py.strip rest <> "" ->
  all_plain (Py.strip rest) = true ->
  In c (active_connections st) ->
  net c = true ->
  In (Sent c ("new_task:{'id': '"
              ++ Py.str_of_int (List.length (tasks st))
              ++ "', 'content': '" ++ Py.strip rest ++ "'}"))
     (trace (exec (resume net ws [Text ("add_task:" ++ rest)]) st)).
Proof.
  intros H Hp Hc Hup. unfold exec.
  rewrite resume_text, resume_nil, on_text_task by exact H. cbn [snd trace].
  apply in_or_app. right. right. unfold pass_events.
  apply in_or_app. left. apply in_map_iff. exists c. split; [|exact Hc].
  unfold attempt. rewrite Hup. f_equal.
  rewrite repr_dict_plain.
  - simpl. unfold quoted_item. simpl.
    repeat (rewrite string_app_assoc; simpl). reflexivity.
  - simpl. now rewrite str_of_int_plain, Hp.
Qed.

(** ** The registry and its trace *)

Lemma registrations_app (ws : WebSocket) (tr new : list Event) :
  registrations ws (tr ++ new) = registrations ws tr + registrations ws new.
Proof.
  induction tr as [|e tr IH]; simpl; [reflexivity|].
  destruct e; simpl; rewrite IH; lia.
Qed.

Lemma removals_app (ws : WebSocket) (tr new : list Event) :
  removals ws (tr ++ new) = removals ws tr + removals ws new.
Proof.
  induction tr as [|e tr IH]; simpl; [reflexivity|].
  destruct e; simpl; rewrite IH; lia.
Qed.

Lemma count_occ_eqb (w ws : WebSocket) (l : list WebSocket) :
  count_occ Nat.eq_dec (w :: l) ws
  = (if Nat.eqb w ws then 1 else 0) + count_occ Nat.eq_dec l ws.
Proof.
  simpl. destruct (Nat.eq_dec w ws) as [E | N].
  - subst. now rewrite Nat.eqb_refl.
  - apply Nat.eqb_neq in N. now rewrite N.
Qed.

Lemma pass_events_counts (net : Net) (msg : string) (l : list WebSocket)
    (ws : WebSocket) :
  registrations ws (pass_events net msg l) = 0
  /\ removals ws (pass_events net msg l) = count_occ Nat.eq_dec (failing net l) ws.
Proof.
  unfold pass_events. rewrite registrations_app, removals_app.
  assert (H1 : registrations ws (map (attempt net msg) l) = 0
               /\ removals ws (map (attempt net msg) l) = 0).
  { induction l as [|a l [IH1 IH2]]; [simpl; auto|].
    cbn [map]. unfold attempt at 1 3.
    destruct (net a); cbn [registrations removals]; auto. }
  assert (H2 : forall d, registrations ws (map Unregistered d) = 0
                         /\ removals ws (map Unregistered d)
                            = count_occ Nat.eq_dec d ws).
  { induction d as [|a d [IH1 IH2]]; [simpl; auto|].
    split; [exact IH1|]. rewrite count_occ_eqb. cbn [map removals].
    now rewrite IH2. }
  destruct H1 as [-> ->]. destruct (H2 (failing net l)) as [-> ->]. auto.
Qed.

Lemma count_occ_pass (net : Net) (l : list WebSocket) (ws : WebSocket) :
  count_occ Nat.eq_dec (filter net l) ws + count_occ Nat.eq_dec (failing net l) ws
  = count_occ Nat.eq_dec l ws.
Proof.
  unfold failing. induction l as [|a l IH]; [reflexivity|].
  cbn [filter]. destruct (net a); cbn [negb]; rewrite !count_occ_eqb; lia.
Qed.

Lemma dispatch_keeps_balance (net : Net) (c : Call) (st : State)
    (ws : WebSocket) :
  count_occ Nat.eq_dec (active_connections st) ws + removals ws (trace st)
  = registrations ws (trace st) ->
  let st' := exec (dispatch net c) st in
  count_occ Nat.eq_dec (active_connections st') ws + removals ws (trace st')
  = registrations ws (trace st').
Proof.
  intros I. cbv zeta.
  destruct (dispatch_effect net c st) as [_ H]. cbv zeta in H.
  destruct H as [E | [(w & _ & E) | [(task & _ & E)
                | [(w & data & _ & _ & E) | (w & _ & E)]]]]; rewrite E;
    cbn [trace active_connections]; try assumption;
    rewrite registrations_app, removals_app.
  - rewrite count_occ_app, count_occ_eqb. simpl.
    destruct (Nat.eqb w ws); unfold WebSocket in *; lia.
  - cbn [registrations removals].
    destruct (pass_events_counts net ("new_task:" ++ Py.repr_dict task)
                (active_connections st) ws) as [-> ->].
    pose proof (count_occ_pass net (active_connections st) ws). unfold WebSocket in *; lia.
  - destruct (pass_events_counts net ("message:" ++ data)
                (active_connections st) ws) as [-> ->].
    pose proof (count_occ_pass net (active_connections st) ws). unfold WebSocket in *; lia.
  - rewrite registrations_app, removals_app.
    destruct (pass_events_counts net "A client disconnected"
                (remove_first w (active_connections st)) ws) as [-> ->].
    pose proof (count_occ_pass net (remove_first w (active_connections st)) ws)
      as Hp.
    pose proof (count_occ_remove_first w ws (active_connections st)) as Hr.
    destruct (Py.list_in w (active_connections st)) eqn:Hin.
    + apply list_in_In in Hin.
      apply (count_occ_In Nat.eq_dec) in Hin.
      cbn [registrations removals].
      destruct (Nat.eq_dec w ws) as [Heq | Hne].
      * subst. rewrite Nat.eqb_refl. unfold WebSocket in *; lia.
      * apply Nat.eqb_neq in Hne. rewrite Hne. unfold WebSocket in *; lia.
    + apply list_in_false in Hin.
      rewrite (remove_first_absent _ _ Hin) in *. simpl. unfold WebSocket in *; lia.
Qed.

Lemma registered_in_In (ws : WebSocket) (tr : list Event) :
  In ws (registered_in tr) <-> In (Registered ws) tr.
Proof.
  induction tr as [|e tr IH]; simpl; [tauto|].
  destruct e; simpl; rewrite IH; split; intros H;
    try (right; exact H); try (destruct H as [H | H]; [discriminate | exact H]).
  - destruct H as [-> | H]; auto.
  - destruct H as [H | H]; [injection H as ->; auto | auto].
Qed.

(** X14. From its start the registry never holds a connection twice, and
    every connection it holds has been registered by [connect]. *)
Theorem registry_holds_each_connection_once (st : State) :
  reachable st ->
  NoDup (active_connections st)
  /\ forall ws, In ws (active_connections st) -> In (Registered ws) (trace st).
Proof.
  intros Hr. split; [now apply reachable_NoDup|].
  intros ws H. apply registered_in_In.
  now apply (reachable_well_addressed st Hr).
Qed.

(** X15. Whatever calls the server has handled since its start, a
    connection is in the registry as many times as it was registered minus
    the times it was removed: nothing is removed that was not registered,
    and nothing leaves the registry in another way. *)
Theorem registry_balances_registrations_and_removals
    (calls : list (Net * Call)) (ws : WebSocket) :
  let st := run calls initial in
  count_occ Nat.eq_dec (active_connections st) ws + removals ws (trace st)
  = registrations ws (trace st).
Proof.
  cbv zeta.
  assert (H : forall st,
             count_occ Nat.eq_dec (active_connections st) ws
             + removals ws (trace st) = registrations ws (trace st) ->
             count_occ Nat.eq_dec (active_connections (run calls st)) ws
             + removals ws (trace (run calls st))
             = registrations ws (trace (run calls st))).
  { induction calls as [|[net c] calls IH]; intros st I; simpl; [exact I|].
    apply IH. now apply dispatch_keeps_balance. }
  apply H. reflexivity.
Qed.

Lemma startswith_other_head (a c : ascii) (p s : string) :
  a <> c -> Py.startswith (String c s) (String a p) = false.
Proof.
  intros H. unfold Py.startswith. cbn [String.prefix].
  destruct (ascii_dec a c); [contradiction | reflexivity].
Qed.

(** X16. The tag counts only at the very start of a frame: a frame with
    whitespace before "add_task:" is relayed as a message, and nothing is
    stored. *)
Theorem tag_after_whitespace_is_relayed
    (net : Net) (ws : WebSocket) (lead rest : string) (st : State) :
  starts_with_space lead = true ->
  let data := (lead ++ "add_task:" ++ rest)%string in
  resume net ws [Text data] st
  = (Return Receiving,
     mkState (tasks st) (filter net (active_connections st))
       (trace st
        ++ map (attempt net ("message:" ++ data)) (active_connections st)
        ++ map Unregistered (failing net (active_connections st)))).
Proof.
  intros H. cbv zeta. rewrite resume_text, resume_nil, on_text_message.
  - reflexivity.
  - destruct lead as [|c lead]; [discriminate|]. simpl in H.
    apply startswith_other_head. intros <-. discriminate H.
Qed.

(** ** The further properties at concrete inputs *)

Lemma server_sends_only_three_forms_witness :
  let st := exec (dispatch all_up (POST_tasks [("name", "buy milk")]))
              (exec (dispatch all_up (WS_open 1)) initial) in
  let msg := "new_task:{'name': 'buy milk'}" in
  reachable st
  /\ (In (Sent 1 msg) (trace st) \/ In (SendFailed 1 msg) (trace st))
  /\ ((exists x, msg = ("new_task:" ++ x)%string)
      \/ (exists x, msg = ("message:" ++ x)%string)
      \/ msg = "A client disconnected").
Proof.
  intros st msg.
  assert (Hr : reachable st).
  { apply reachable_step; [|exact I].
    apply reachable_step; [apply reachable_initial | simpl; tauto]. }
  assert (Hin : In (Sent 1 msg) (trace st) \/ In (SendFailed 1 msg) (trace st)).
  { left. vm_compute. auto 10. }
  split; [exact Hr|]. split; [exact Hin|].
  exact (server_sends_only_three_forms st Hr 1 msg Hin).
Defined.

Lemma server_sends_only_to_registered_witness :
  let st := exec (dispatch all_up (POST_tasks [("name", "buy milk")]))
              (exec (dispatch all_up (WS_open 1)) initial) in
  let pre := [Accepted 1; Registered 1; Stored [("name", "buy milk")]] in
  let e := Sent 1 "new_task:{'name': 'buy milk'}" in
  reachable st
  /\ trace st = pre ++ e :: []
  /\ is_send_to 1 e = true
  /\ In (Registered 1) pre.
Proof.
  intros st pre e.
  assert (Hr : reachable st).
  { apply reachable_step; [|exact I].
    apply reachable_step; [apply reachable_initial | simpl; tauto]. }
  assert (Ht : trace st = pre ++ e :: []) by reflexivity.
  assert (He : is_send_to 1 e = true) by reflexivity.
  split; [exact Hr|]. split; [exact Ht|]. split; [exact He|].
  exact (server_sends_only_to_registered st Hr pre e [] 1 Ht He).
Defined.

Lemma frame_task_id_is_its_position_witness :
  let calls := [(all_up, WS_receive 1 (Text "add_task: a"));
                (all_up, WS_receive 1 (Text "hello"));
                (all_up, WS_receive 1 (Text "add_task: b"))] in
  let st := mkState [[("k", "v")]] [1] [] in
  forallb (fun nc => negb (is_post (snd nc))) calls = true
  /\ nth_error (tasks (run calls st)) (List.length (tasks st) + 1)
     = Some [("id", "2"); ("content", "b")]
  /\ exists content,
       [("id", "2"); ("content", "b")]
       = [("id", Py.str_of_int (List.length (tasks st) + 1));
          ("content", content)]
       /\ content <> "".
Proof.
  intros calls st.
  assert (H : forallb (fun nc => negb (is_post (snd nc))) calls = true)
    by reflexivity.
  assert (Hn : nth_error (tasks (run calls st)) (List.length (tasks st) + 1)
               = Some [("id", "2"); ("content", "b")]) by reflexivity.
  split; [exact H|]. split; [exact Hn|].
  exact (frame_task_id_is_its_position calls st 1 _ H Hn).
Defined.

Lemma frame_task_ids_are_distinct_witness :
  let calls := [(all_up, WS_receive 1 (Text "add_task: a"));
                (all_up, WS_receive 1 (Text "add_task: b"))] in
  let st := mkState [[("k", "v")]] [1] [] in
  forallb (fun nc => negb (is_post (snd nc))) calls = true
  /\ nth_error (tasks (run calls st)) (List.length (tasks st) + 0)
     = Some [("id", "1"); ("content", "a")]
  /\ nth_error (tasks (run calls st)) (List.length (tasks st) + 1)
     = Some [("id", "2"); ("content", "b")]
  /\ 0 <> 1
  /\ exists idi idj ci cj,
       [("id", "1"); ("content", "a")] = [("id", idi); ("content", ci)]
       /\ [("id", "2"); ("content", "b")] = [("id", idj); ("content", cj)]
       /\ idi <> idj.
Proof.
  intros calls st.
  assert (H : forallb (fun nc => negb (is_post (snd nc))) calls = true)
    by reflexivity.
  assert (Hi : nth_error (tasks (run calls st)) (List.length (tasks st) + 0)
               = Some [("id", "1"); ("content", "a")]) by reflexivity.
  assert (Hj : nth_error (tasks (run calls st)) (List.length (tasks st) + 1)
               = Some [("id", "2"); ("content", "b")]) by reflexivity.
  assert (Hij : 0 <> 1) by discriminate.
  split; [exact H|]. split; [exact Hi|]. split; [exact Hj|]. split; [exact Hij|].
  destruct (frame_task_ids_are_distinct calls st 0 1 _ _ H Hi Hj Hij)
    as (idi & idj & ci & cj & Ei & Ej & N & _).
  exists idi, idj, ci, cj. auto.
Defined.

Lemma frame_task_content_is_trimmed_witness :
  Py.strip "  write report  " <> ""
  /\ exists st' content lead trail,
       resume all_up 1 [Text "add_task:  write report  "] (mkState [] [1] [])
       = (Return Receiving, st')
       /\ "  write report  " = (lead ++ content ++ trail)%string
       /\ starts_with_space content = false
       /\ ends_with_space content = false.
Proof.
  assert (H : Py.strip "  write report  " <> "") by (vm_compute; discriminate).
  split; [exact H|].
  destruct (frame_task_content_is_trimmed all_up 1 "  write report  "
              (mkState [] [1] []) H)
    as (st' & content & lead & trail & E & _ & S & _ & _ & N1 & N2).
  exists st', content, lead, trail. auto.
Defined.

Lemma add_task_frame_of_plain_task_witness :
  let task : Task := [("name", "buy milk"); ("who", "me")] in
  let st := mkState [] [1; 2] [] in
  all_plain_dict task = true
  /\ In 1 (active_connections st)
  /\ all_up 1 = true
  /\ In (Sent 1 "new_task:{'name': 'buy milk', 'who': 'me'}")
        (trace (exec (add_task all_up task) st)).
Proof.
  intros task st.
  assert (Hp : all_plain_dict task = true) by reflexivity.
  assert (Hc : In 1 (active_connections st)) by (simpl; auto).
  assert (Hu : all_up 1 = true) by reflexivity.
  split; [exact Hp|]. split; [exact Hc|]. split; [exact Hu|].
  exact (add_task_frame_of_plain_task all_up task st 1 Hp Hc Hu).
Defined.

Lemma add_task_frame_of_plain_content_witness :
  let st := mkState [[("k", "v")]] [1; 2] [] in
  Py.strip " write report " <> ""
  /\ all_plain (Py.strip " write report ") = true
  /\ In 2 (active_connections st)
  /\ all_up 2 = true
  /\ In (Sent 2 "new_task:{'id': '1', 'content': 'write report'}")
        (trace (exec (resume all_up 1 [Text "add_task: write report "]) st)).
Proof.
  intros st.
  assert (H : Py.strip " write report " <> "") by (vm_compute; discriminate).
  assert (Hp : all_plain (Py.strip " write report ") = true) by reflexivity.
  assert (Hc : In 2 (active_connections st)) by (simpl; auto).
  assert (Hu : all_up 2 = true) by reflexivity.
  split; [exact H|]. split; [exact Hp|]. split; [exact Hc|]. split; [exact Hu|].
  exact (add_task_frame_of_plain_content all_up 1 " write report " st 2 H Hp Hc Hu).
Defined.

Lemma registry_holds_each_connection_once_witness :
  let st := exec (dispatch all_up (WS_open 2))
              (exec (dispatch all_up (WS_open 1)) initial) in
  reachable st
  /\ NoDup (active_connections st)
  /\ forall ws, In ws (active_connections st) -> In (Registered ws) (trace st).
Proof.
  intros st.
  assert (Hr : reachable st).
  { apply reachable_step.
    - apply reachable_step; [apply reachable_initial | simpl; tauto].
    - simpl. intros [E | []]. discriminate E. }
  split; [exact Hr|].
  exact (registry_holds_each_connection_once st Hr).
Defined.

Lemma tag_after_whitespace_is_relayed_witness :
  starts_with_space " " = true
  /\ resume all_up 1 [Text " add_task:x"] (mkState [] [1] [])
     = (Return Receiving,
        mkState [] [1] [Sent 1 "message: add_task:x"]).
Proof.
  assert (H : starts_with_space " " = true) by reflexivity.
  split; [exact H|].
  exact (tag_after_whitespace_is_relayed all_up 1 " " "x" (mkState [] [1] []) H).
Defined.

(** ** The handlers over the states of the sockets *)

Import Starlette.

Lemma send_text_up (net : Net) (c : WebSocket) (msg : string) (w : World) :
  application_state (sockets w c) = CONNECTED -> net c = true ->
  send_text net c msg w
  = (Returns tt, mkWorld (log (Sent c msg) (app w)) (sockets w)).
Proof.
  intros Hs Hn. unfold send_text, send, _send. run_io.
  rewrite Hs, Hn. reflexivity.
Qed.

Lemma send_text_down (net : Net) (c : WebSocket) (msg : string) (w : World) :
  application_state (sockets w c) = CONNECTED -> net c = false ->
  send_text net c msg w
  = (Raises (Exn WebSocketDisconnect),
     mkWorld (log (SendFailed c msg) (app w))
       (fun x => if Nat.eqb x c
                 then mkSocket (client_state (sockets w c)) DISCONNECTED
                 else sockets w x)).
Proof.
  intros Hs Hn. unfold send_text, send, _send. run_io.
  rewrite Hs, Hn. reflexivity.
Qed.


Lemma closed_nil (w : World) (x : WebSocket) :
  Service.closed [] w x = sockets w x.
Proof. reflexivity. Qed.

Lemma list_in_failing (net : Net) (l : list WebSocket) (x : WebSocket) :
  Py.list_in x (failing net l) = true <-> In x l /\ net x = false.
Proof.
  rewrite list_in_In. unfold failing. rewrite filter_In.
  now rewrite negb_true_iff.
Qed.

Lemma live_send_step_up (net : Net) (msg : string) (c : WebSocket)
    (d : list WebSocket) (w : World) :
  application_state (sockets w c) = CONNECTED -> net c = true ->
  try_except is_WebSocketDisconnect
    (and_then (send_text net c msg) (fun _ => pure d)) (pure (d ++ [c])) w
  = (Returns d, mkWorld (log (Sent c msg) (app w)) (sockets w)).
Proof.
  intros Hs Hn. unfold try_except, and_then.
  now rewrite (send_text_up net c msg w Hs Hn).
Qed.

Lemma live_send_step_down (net : Net) (msg : string) (c : WebSocket)
    (d : list WebSocket) (w : World) :
  application_state (sockets w c) = CONNECTED -> net c = false ->
  try_except is_WebSocketDisconnect
    (and_then (send_text net c msg) (fun _ => pure d)) (pure (d ++ [c])) w
  = (Returns (d ++ [c]),
     mkWorld (log (SendFailed c msg) (app w))
       (fun x => if Nat.eqb x c
                 then mkSocket (client_state (sockets w c)) DISCONNECTED
                 else sockets w x)).
Proof.
  intros Hs Hn. unfold try_except, and_then.
  now rewrite (send_text_down net c msg w Hs Hn).
Qed.


(** The first loop of a pass over sockets that are distinct and all
    [CONNECTED]: every one gets its send, and those whose channel is broken
    end up [DISCONNECTED] and in the list returned. *)
Lemma live_broadcast_send (net : Net) (msg : string)
    (conns d : list WebSocket) (w : World) :
  NoDup conns ->
  (forall c, In c conns -> application_state (sockets w c) = CONNECTED) ->
  exists w',
    Service.broadcast_send net msg conns d w
    = (Returns (d ++ failing net conns), w')
    /\ app w'
       = mkState (tasks (app w)) (active_connections (app w))
           (trace (app w) ++ map (attempt net msg) conns)
    /\ forall x, sockets w' x = Service.closed (failing net conns) w x.
Proof.
  revert d w. induction conns as [|c conns IH]; intros d w Hnd Hc.
  - exists w. simpl. unfold pure. rewrite !app_nil_r.
    repeat split. now destruct (app w).
  - inversion Hnd as [|? ? Hnot Hnd']; subst.
    assert (Hcc : application_state (sockets w c) = CONNECTED)
      by (apply Hc; simpl; auto).
    cbn [Service.broadcast_send]. unfold and_then at 1.
    destruct (net c) eqn:Hn.
    + rewrite (live_send_step_up net msg c d w Hcc Hn).
      destruct (IH d (mkWorld (log (Sent c msg) (app w)) (sockets w)) Hnd')
        as (w' & E & Ea & Es).
      { intros x Hx. simpl. apply Hc. simpl. auto. }
      exists w'. rewrite E. unfold failing, attempt. simpl. rewrite Hn. simpl.
      split; [reflexivity|]. split.
      * rewrite Ea. simpl. now rewrite <- app_assoc.
      * intros x. rewrite Es. reflexivity.
    + rewrite (live_send_step_down net msg c d w Hcc Hn).
      destruct (IH (d ++ [c])
                  (mkWorld (log (SendFailed c msg) (app w))
                     (fun x => if Nat.eqb x c
                               then mkSocket (client_state (sockets w c)) DISCONNECTED
                               else sockets w x)) Hnd')
        as (w' & E & Ea & Es).
      { intros x Hx. simpl. destruct (Nat.eqb_spec x c) as [-> | _].
        - contradiction.
        - apply Hc. simpl. auto. }
      exists w'. rewrite E. unfold failing, attempt. simpl. rewrite Hn. simpl.
      split; [now rewrite <- app_assoc|]. split.
      * rewrite Ea. simpl. now rewrite <- app_assoc.
      * intros x. rewrite Es. unfold Service.closed, Py.list_in.
        cbn [existsb sockets].
        destruct (Nat.eqb x c) eqn:Hxc; cbn [orb]; [|reflexivity].
        apply Nat.eqb_eq in Hxc. subst x.
        try rewrite Nat.eqb_refl.
        destruct (existsb (Nat.eqb c) (failing net conns)); reflexivity.
Qed.

Lemma live_broadcast_cleanup (d : list WebSocket) (w : World) :
  (forall x, count_occ Nat.eq_dec d x
             <= count_occ Nat.eq_dec (active_connections (app w)) x) ->
  Service.broadcast_cleanup d w
  = (Returns tt,
     mkWorld (mkState (tasks (app w)) (remove_each d (active_connections (app w)))
                (trace (app w) ++ map Unregistered d))
       (sockets w)).
Proof.
  revert w. induction d as [|x d IH]; intros w H.
  - simpl. unfold pure. rewrite app_nil_r. destruct w as [[t r tr] s]. reflexivity.
  - cbn [Service.broadcast_cleanup]. unfold and_then, Service.disconnect, lift.
    assert (Hx : In x (active_connections (app w))).
    { apply (count_occ_In Nat.eq_dec). specialize (H x). simpl in H.
      destruct (Nat.eq_dec x x); [unfold WebSocket in *; lia | congruence]. }
    rewrite (disconnect_present _ _ Hx). unfold with_app. rewrite IH; simpl.
    + rewrite <- app_assoc. reflexivity.
    + intros y. rewrite count_occ_remove_first. specialize (H y). simpl in H.
      destruct (Nat.eq_dec x y); unfold WebSocket in *; lia.
Qed.

(** A pass of [broadcast] in a healthy world: it returns, the registry
    keeps the sockets whose channel took the frame, the others are closed,
    and the world is healthy again. *)
Lemma live_broadcast (net : Net) (msg : string) (w : World) :
  Service.healthy w ->
  exists w',
    Service.broadcast net msg w = (Returns tt, w')
    /\ app w'
       = mkState (tasks (app w)) (filter net (active_connections (app w)))
           (trace (app w) ++ pass_events net msg (active_connections (app w)))
    /\ (forall x, sockets w' x
                  = Service.closed (failing net (active_connections (app w))) w x)
    /\ Service.healthy w'.
Proof.
  intros [Hnd Hc].
  destruct (live_broadcast_send net msg (active_connections (app w)) []
              (mkWorld (app w) (sockets w)) Hnd Hc) as (w1 & E & Ea & Es).
  unfold Service.broadcast. unfold and_then at 1. unfold lift, gets, with_app.
  unfold and_then. rewrite E. simpl.
  rewrite live_broadcast_cleanup.
  - eexists. split; [reflexivity|]. simpl. rewrite Ea. simpl.
    rewrite remove_each_failing. unfold pass_events. rewrite <- app_assoc.
    split; [reflexivity|]. split; [exact Es|].
    split; simpl.
    + now apply NoDup_filter.
    + intros c Hin. apply filter_In in Hin. destruct Hin as [Hin Hn].
      rewrite Es. unfold Service.closed.
      destruct (Py.list_in c (failing net (active_connections (app w)))) eqn:Hl.
      * apply list_in_failing in Hl. destruct Hl. congruence.
      * simpl. now apply Hc.
  - intros x. rewrite Ea. simpl. apply count_occ_failing.
Qed.

Lemma never_back_refl (w : World) : never_back w w.
Proof.
  intros ws H1 H2. repeat split; auto. exists []. now rewrite app_nil_r.
Qed.

Lemma never_back_trans (w1 w2 w3 : World) :
  never_back w1 w2 -> never_back w2 w3 -> never_back w1 w3.
Proof.
  intros H12 H23 ws H1 H2.
  destruct (H12 ws H1 H2) as (A1 & A2 & n1 & E1 & F1).
  destruct (H23 ws A1 A2) as (B1 & B2 & n2 & E2 & F2).
  repeat split; auto. exists (n1 ++ n2).
  rewrite E2, E1, <- app_assoc, forallb_app, F1, F2. auto.
Qed.

(** Two worlds with the same sockets, the same registry, and a trace that
    gained no send. *)
Lemma never_back_quiet (w w' : World) (ev : list Event) :
  (forall x, application_state (sockets w' x) = application_state (sockets w x)) ->
  active_connections (app w') = active_connections (app w) ->
  trace (app w') = trace (app w) ++ ev ->
  forallb (fun e => negb (is_send e)) ev = true ->
  never_back w w'.
Proof.
  intros Hs Hr Ht Hq ws H1 H2. rewrite Hs, Hr. repeat split; auto.
  exists ev. split; [exact Ht|].
  apply forallb_forall. intros e He.
  rewrite forallb_forall in Hq. specialize (Hq e He).
  destruct e; simpl in *; auto; discriminate.
Qed.

Lemma healthy_quiet (w w' : World) :
  (forall x, application_state (sockets w' x) = application_state (sockets w x)) ->
  active_connections (app w') = active_connections (app w) ->
  Service.healthy w -> Service.healthy w'.
Proof.
  intros Hs Hr [Hn Hc]. split; rewrite Hr; [exact Hn|].
  intros c Hin. rewrite Hs. now apply Hc.
Qed.

Lemma sound_pure {A} (a : A) : sound (pure a).
Proof. intros w H. split; [exact H | apply never_back_refl]. Qed.

Lemma sound_throw {A} (e : Error) : sound (@throw A e).
Proof. intros w H. split; [exact H | apply never_back_refl]. Qed.

Lemma sound_suspend {A} : sound (@suspend A).
Proof. intros w H. split; [exact H | apply never_back_refl]. Qed.

Lemma sound_and_then {A B} (c : IO A) (k : A -> IO B) :
  sound c -> (forall a, sound (k a)) -> sound (and_then c k).
Proof.
  intros Hc Hk w H. unfold and_then.
  destruct (Hc w H) as [H1 N1]. destruct (c w) as [[a | e |] w1]; simpl in *.
  - destruct (Hk a w1 H1) as [H2 N2]. split; [exact H2|].
    eapply never_back_trans; eassumption.
  - now split.
  - now split.
Qed.

Lemma sound_try_except {A} (catches : Error -> bool) (body handler : IO A) :
  sound body -> sound handler -> sound (try_except catches body handler).
Proof.
  intros Hb Hh w H. unfold try_except.
  destruct (Hb w H) as [H1 N1]. destruct (body w) as [[a | e |] w1]; simpl in *.
  - now split.
  - destruct (catches e); [|now split].
    destruct (Hh w1 H1) as [H2 N2]. split; [exact H2|].
    eapply never_back_trans; eassumption.
  - now split.
Qed.

Lemma sound_the_socket (ws : WebSocket) : sound (the_socket ws).
Proof. intros w H. split; [exact H | apply never_back_refl]. Qed.

Lemma sound_set_client_state (ws : WebSocket) (st : WebSocketState) :
  sound (set_client_state ws st).
Proof.
  intros w H. unfold set_client_state, and_then, the_socket, set_socket.
  cbn [snd fst].
  assert (Hs : forall x,
             application_state
               (sockets (mkWorld (app w)
                  (fun x0 => if Nat.eqb x0 ws
                             then mkSocket st (application_state (sockets w ws))
                             else sockets w x0)) x)
             = application_state (sockets w x)).
  { intros x. simpl. destruct (Nat.eqb_spec x ws) as [-> | _]; reflexivity. }
  split.
  - eapply healthy_quiet; [exact Hs | reflexivity | exact H].
  - eapply (never_back_quiet _ _ []); [exact Hs | reflexivity | | reflexivity].
    simpl. now rewrite app_nil_r.
Qed.

Lemma sound__receive (inbox : list Message) : sound (_receive inbox).
Proof.
  destruct inbox; [apply sound_suspend | apply sound_pure].
Qed.

Lemma sound_receive (ws : WebSocket) (inbox : list Message) :
  sound (receive ws inbox).
Proof.
  unfold receive. apply sound_and_then; [apply sound_the_socket|].
  intros s. destruct (client_state s); try apply sound_throw;
    (apply sound_and_then; [apply sound__receive|]);
    intros [m rest]; destruct m; cbn [fst];
    try apply sound_throw; try apply sound_pure;
    (apply sound_and_then; [apply sound_set_client_state|]);
    intros _; apply sound_pure.
Qed.

Lemma sound_receive_text (ws : WebSocket) (inbox : list Message) :
  sound (receive_text ws inbox).
Proof.
  unfold receive_text. apply sound_and_then; [apply sound_the_socket|].
  intros s. destruct (application_state s); try apply sound_throw.
  apply sound_and_then; [apply sound_receive|].
  intros [m rest]; destruct m; cbn [fst];
    try apply sound_throw; apply sound_pure.
Qed.

Lemma sound_receive_text_resumed (ws : WebSocket) (inbox : list Message) :
  sound (receive_text_resumed ws inbox).
Proof.
  unfold receive_text_resumed. apply sound_and_then; [apply sound__receive|].
  intros [m rest]; destruct m; cbn [fst];
    try apply sound_throw; try apply sound_pure.
  apply sound_and_then; [apply sound_set_client_state|].
  intros _. apply sound_throw.
Qed.

(** A computation on the store, the registry and the trace that leaves the
    registry alone and logs no send. *)
Lemma sound_lift_quiet {A} (c : M A) :
  (forall st, active_connections (snd (c st)) = active_connections st
              /\ exists ev, trace (snd (c st)) = trace st ++ ev
                            /\ forallb (fun e => negb (is_send e)) ev = true) ->
  sound (lift c).
Proof.
  intros Hc w H. unfold lift, with_app.
  destruct (Hc (app w)) as (Hr & ev & Ht & Hq).
  destruct (c (app w)) as [[a | e] st]; simpl in *;
    (split;
     [eapply healthy_quiet; [| | exact H]; simpl; auto
     | eapply (never_back_quiet _ _ ev); simpl; auto]).
Qed.

Lemma sound_tasks_append (task : Task) : sound (lift (tasks_append task)).
Proof.
  apply sound_lift_quiet. intros st. simpl. split; [reflexivity|].
  exists [Stored task]. auto.
Qed.

Lemma sound_lift_gets {A} (f : State -> A) : sound (lift (gets f)).
Proof.
  apply sound_lift_quiet. intros st. simpl. split; [reflexivity|].
  exists []. now rewrite app_nil_r.
Qed.

Lemma sound_get_tasks : sound (lift get_tasks).
Proof.
  apply sound_lift_quiet. intros st. simpl. split; [reflexivity|].
  exists []. now rewrite app_nil_r.
Qed.

Lemma sound_disconnect (ws : WebSocket) : sound (Service.disconnect ws).
Proof.
  intros w [Hn Hc]. unfold Service.disconnect, lift, with_app.
  destruct (in_dec Nat.eq_dec ws (active_connections (app w))) as [Hin | Hout].
  - rewrite (disconnect_present _ _ Hin). simpl. split.
    + split; simpl.
      * now apply NoDup_remove_first.
      * intros c Hx. apply Hc. eapply In_remove_first, Hx.
    + intros x H1 H2. simpl. repeat split; auto.
      * intros F. apply H2. eapply In_remove_first, F.
      * exists [Unregistered ws]. auto.
  - rewrite (disconnect_absent _ _ Hout). simpl. split.
    + split; assumption.
    + intros x H1 H2. simpl. repeat split; auto.
      exists []. now rewrite app_nil_r.
Qed.

Lemma sound_broadcast (net : Net) (msg : string) :
  sound (Service.broadcast net msg).
Proof.
  intros w H. destruct (live_broadcast net msg w H) as (w' & E & Ea & Es & Hh).
  rewrite E. simpl. split; [exact Hh|].
  intros x H1 H2. rewrite Es, Ea. simpl.
  assert (Hf : Py.list_in x (failing net (active_connections (app w))) = false).
  { apply list_in_false. intros F. apply H2.
    unfold failing in F. apply filter_In in F. tauto. }
  unfold Service.closed. rewrite Hf. repeat split; auto.
  - intros F. apply filter_In in F. tauto.
  - eexists. split; [reflexivity|]. now apply pass_events_skip.
Qed.

(** [receive] changes nothing but the client state of its own socket. *)
Lemma receive_effect (ws : WebSocket) (inbox : list Message) (w : World) :
  let w' := snd (receive ws inbox w) in
  app w' = app w
  /\ (forall x, application_state (sockets w' x) = application_state (sockets w x))
  /\ forall x, x <> ws -> sockets w' x = sockets w x.
Proof.
  cbv zeta. unfold receive, and_then, the_socket, _receive.
  destruct (client_state (sockets w ws));
    destruct inbox as [|m rest]; try destruct m; simpl;
    repeat split; intros x; try intros Hx;
    try (destruct (Nat.eqb_spec x ws) as [-> | Hn]; simpl; congruence);
    reflexivity.
Qed.

Lemma send_accept_returns (net : Net) (ws : WebSocket) (w w' : World) :
  send net ws websocket_accept w = (Returns tt, w') ->
  application_state (sockets w ws) = CONNECTING
  /\ application_state (sockets w' ws) = CONNECTED
  /\ (forall x, x <> ws -> sockets w' x = sockets w x)
  /\ app w' = log (Accepted ws) (app w).
Proof.
  unfold send, and_then, the_socket, _send.
  destruct (application_state (sockets w ws)) eqn:Ha; simpl; try discriminate.
  destruct (net ws); simpl; [|discriminate].
  intros E. injection E as <-. simpl. rewrite Nat.eqb_refl. simpl.
  repeat split. intros x Hx. apply Nat.eqb_neq in Hx. now rewrite Hx.
Qed.

Lemma sound_send_accept (net : Net) (ws : WebSocket) :
  sound (send net ws websocket_accept).
Proof.
  intros w H. unfold send, and_then, the_socket, _send.
  destruct (application_state (sockets w ws)) eqn:Ha; simpl;
    try (split; [exact H | apply never_back_refl]).
  assert (Hout : ~ In ws (active_connections (app w))).
  { intros F. destruct H as [_ Hc]. specialize (Hc ws F). congruence. }
  assert (Hh : forall st,
             active_connections st = active_connections (app w) ->
             Service.healthy
               (mkWorld st
                  (fun x => if Nat.eqb x ws
                            then mkSocket (client_state (sockets w ws)) CONNECTED
                            else sockets w x))).
  { intros st Hst. destruct H as [Hn Hc]. split; simpl; rewrite Hst; [exact Hn|].
    intros c Hin. destruct (Nat.eqb_spec c ws) as [-> | _]; [reflexivity|].
    now apply Hc. }
  assert (Hb : forall st ev,
             active_connections st = active_connections (app w) ->
             trace st = trace (app w) ++ ev ->
             forallb (fun e => negb (is_send e)) ev = true ->
             never_back w
               (mkWorld st
                  (fun x => if Nat.eqb x ws
                            then mkSocket (client_state (sockets w ws)) CONNECTED
                            else sockets w x))).
  { intros st ev Hst Ht Hq x H1 H2. simpl. rewrite Hst.
    destruct (Nat.eqb_spec x ws) as [-> | _]; [congruence|].
    repeat split; auto. exists ev. split; [exact Ht|].
    apply forallb_forall. intros e He. rewrite forallb_forall in Hq.
    specialize (Hq e He). destruct e; simpl in *; auto; discriminate. }
  destruct (net ws); simpl.
  - split; [now apply Hh | now apply (Hb _ [Accepted ws])].
  - split; [now apply Hh |]. apply (Hb _ []); auto. now rewrite app_nil_r.
Qed.

Lemma sound_accept (net : Net) (ws : WebSocket) (inbox : list Message) :
  sound (accept net ws inbox).
Proof.
  unfold accept. apply sound_and_then; [apply sound_the_socket|].
  intros s. apply sound_and_then.
  - destruct (client_state s); try apply sound_pure.
    apply sound_and_then; [apply sound_receive | intros; apply sound_pure].
  - intros rest. apply sound_and_then; [apply sound_send_accept|].
    intros; apply sound_pure.
Qed.

(** [accept] returns only on a socket that had not been accepted, and
    leaves it [CONNECTED]; the other sockets are as they were. *)
Lemma accept_returns (net : Net) (ws : WebSocket) (inbox rest : list Message)
    (w w' : World) :
  accept net ws inbox w = (Returns rest, w') ->
  application_state (sockets w ws) = CONNECTING
  /\ application_state (sockets w' ws) = CONNECTED
  /\ (forall x, x <> ws -> sockets w' x = sockets w x)
  /\ app w' = log (Accepted ws) (app w).
Proof.
  unfold accept. unfold and_then at 1. unfold the_socket at 1.
  unfold and_then at 1.
  set (first := match client_state (sockets w ws) with
                | CONNECTING =>
                    and_then (receive ws inbox) (fun mr => pure (snd mr))
                | _ => pure inbox
                end).
  assert (Hf : app (snd (first w)) = app w
               /\ (forall x, application_state (sockets (snd (first w)) x)
                             = application_state (sockets w x))
               /\ forall x, x <> ws -> sockets (snd (first w)) x = sockets w x).
  { subst first. destruct (client_state (sockets w ws)); try (simpl; auto).
    unfold and_then. pose proof (receive_effect ws inbox w) as He.
    cbv zeta in He. destruct (receive ws inbox w) as [[mr | e |] w1]; exact He. }
  destruct (first w) as [[r | e |] w1]; try discriminate.
  simpl in Hf. destruct Hf as (Ha & Hs & Ho).
  unfold and_then.
  destruct (send net ws websocket_accept w1) as [[[] | e |] w2] eqn:Es;
    try discriminate.
  intros E. injection E as _ <-.
  destruct (send_accept_returns net ws w1 w2 Es) as (S1 & S2 & S3 & S4).
  repeat split.
  - now rewrite <- Hs.
  - exact S2.
  - intros x Hx. rewrite S3, Ho; auto.
  - now rewrite S4, Ha.
Qed.

Lemma sound_connect (net : Net) (ws : WebSocket) (inbox : list Message) :
  sound (Service.connect net ws inbox).
Proof.
  intros w H. unfold Service.connect, and_then.
  destruct (accept net ws inbox w) as [[rest | e |] w1] eqn:E.
  - destruct (accept_returns net ws inbox rest w w1 E) as (A1 & A2 & A3 & A4).
    destruct H as [Hn Hc].
    assert (Hout : ~ In ws (active_connections (app w))).
    { intros F. specialize (Hc ws F). congruence. }
    unfold lift, modify, with_app. simpl. rewrite A4. simpl. split.
    + split; simpl.
      * apply NoDup_app; [exact Hn | repeat constructor; simpl; tauto |].
        intros x Hx [<- | []]. contradiction.
      * intros c Hin. apply in_app_or in Hin.
        destruct (Nat.eq_dec c ws) as [-> | Hne]; [exact A2|].
        rewrite (A3 c Hne). apply Hc.
        destruct Hin as [Hin | [F | []]]; [exact Hin | congruence].
    + intros x H1 H2. simpl.
      assert (Hx : x <> ws) by congruence.
      rewrite (A3 x Hx). repeat split; auto.
      * intros F. apply in_app_or in F. destruct F as [F | [F | []]]; auto.
      * exists [Accepted ws; Registered ws]. now rewrite <- app_assoc.
  - pose proof (sound_accept net ws inbox w H) as S. now rewrite E in S.
  - pose proof (sound_accept net ws inbox w H) as S. now rewrite E in S.
Qed.

Lemma sound_on_text (net : Net) (data : string) : sound (Service.on_text net data).
Proof.
  unfold Service.on_text.
  destruct (Py.startswith data "add_task:"); [|apply sound_broadcast].
  destruct (Py.truthy _); [|apply sound_pure].
  apply sound_and_then; [apply sound_lift_gets|]. intros n.
  apply sound_and_then; [apply sound_tasks_append|]. intros _.
  apply sound_broadcast.
Qed.

Lemma sound_add_task (net : Net) (task : Task) : sound (Service.add_task net task).
Proof.
  unfold Service.add_task.
  apply sound_and_then; [apply sound_tasks_append|]. intros _.
  apply sound_and_then; [apply sound_broadcast|]. intros _. apply sound_pure.
Qed.

Lemma sound_on_disconnect (net : Net) (ws : WebSocket) :
  sound (Service.on_disconnect net ws).
Proof.
  unfold Service.on_disconnect.
  apply sound_and_then; [apply sound_disconnect|]. intros _.
  apply sound_broadcast.
Qed.

Lemma sound_receive_loop (net : Net) (ws : WebSocket) (inbox : list Message) :
  sound (Service.receive_loop net ws inbox).
Proof.
  induction inbox as [|m inbox IH]; cbn [Service.receive_loop].
  - apply sound_and_then; [apply sound_receive_text | intros; apply sound_pure].
  - apply sound_and_then; [apply sound_receive_text|]. intros dr.
    apply sound_and_then; [apply sound_on_text|]. intros _. exact IH.
Qed.

Lemma sound_websocket_endpoint (net : Net) (ws : WebSocket)
    (inbox : list Message) :
  sound (Service.websocket_endpoint net ws inbox).
Proof.
  unfold Service.websocket_endpoint.
  apply sound_and_then; [apply sound_connect|]. intros rest.
  apply sound_try_except; [apply sound_receive_loop | apply sound_on_disconnect].
Qed.

Lemma sound_resume (net : Net) (ws : WebSocket) (inbox : list Message) :
  sound (Service.resume net ws inbox).
Proof.
  unfold Service.resume.
  apply sound_try_except; [|apply sound_on_disconnect].
  destruct inbox as [|m rest]; [apply sound_suspend|].
  apply sound_and_then; [apply sound_receive_text_resumed|]. intros dr.
  apply sound_and_then; [apply sound_on_text|]. intros _.
  apply sound_receive_loop.
Qed.

Lemma sound_dispatch (net : Net) (c : Service.Call) :
  sound (Service.dispatch net c).
Proof.
  destruct c as [| task | ws inbox | ws inbox]; cbn [Service.dispatch].
  - apply sound_and_then; [apply sound_get_tasks | intros; apply sound_pure].
  - apply sound_and_then; [apply sound_add_task | intros; apply sound_pure].
  - apply sound_websocket_endpoint.
  - apply sound_resume.
Qed.

(** Whatever calls follow, the registry stays healthy and a socket that is
    closed and out of the registry stays so, with nothing sent to it. *)
Lemma sound_run (calls : list (Net * Service.Call)) (w : World) :
  Service.healthy w ->
  Service.healthy (Service.run calls w) /\ never_back w (Service.run calls w).
Proof.
  revert w. induction calls as [|[net c] calls IH]; intros w H; simpl.
  - split; [exact H | apply never_back_refl].
  - destruct (sound_dispatch net c w H) as [H1 N1].
    destruct (IH _ H1) as [H2 N2]. split; [exact H2|].
    eapply never_back_trans; eassumption.
Qed.

Lemma healthy_boot : Service.healthy Service.boot.
Proof. split; simpl; [constructor | intros c []]. Qed.



Lemma receive_connect (ws : WebSocket) (rest : list Message) (w : World) :
  client_state (sockets w ws) = CONNECTING ->
  receive ws (websocket_connect :: rest) w
  = (Returns (websocket_connect, rest),
     mkWorld (app w)
       (fun x => if Nat.eqb x ws
                 then mkSocket CONNECTED (application_state (sockets w ws))
                 else sockets w x)).
Proof.
  intros H. unfold receive, and_then, the_socket. rewrite H. reflexivity.
Qed.

Lemma send_accept_new (net : Net) (ws : WebSocket) (w : World) :
  application_state (sockets w ws) = CONNECTING -> net ws = true ->
  send net ws websocket_accept w
  = (Returns tt,
     mkWorld (log (Accepted ws) (app w))
       (fun x => if Nat.eqb x ws
                 then mkSocket (client_state (sockets w ws)) CONNECTED
                 else sockets w x)).
Proof.
  intros H Hn. unfold send, and_then, the_socket, _send. rewrite H, Hn.
  reflexivity.
Qed.

(** [connect] on a socket as [WebSocket.__init__] leaves it, when the
    connect message is there and the channel is up. *)
Lemma connect_new_socket (net : Net) (ws : WebSocket) (rest : list Message)
    (w : World) :
  sockets w ws = new_socket -> net ws = true ->
  exists w',
    Service.connect net ws (websocket_connect :: rest) w = (Returns rest, w')
    /\ app w'
       = mkState (tasks (app w)) (active_connections (app w) ++ [ws])
           (trace (app w) ++ [Accepted ws; Registered ws])
    /\ sockets w' ws = mkSocket CONNECTED CONNECTED
    /\ forall x, x <> ws -> sockets w' x = sockets w x.
Proof.
  intros Hs Hn.
  assert (Hc : client_state (sockets w ws) = CONNECTING) by now rewrite Hs.
  assert (Ha : application_state (sockets w ws) = CONNECTING) by now rewrite Hs.
  eexists. unfold Service.connect. unfold and_then at 1.
  unfold accept. unfold and_then at 1. unfold the_socket at 1.
  rewrite Hc. unfold and_then at 1. unfold and_then at 1.
  rewrite (receive_connect ws rest w Hc). unfold pure at 1. cbn [snd].
  unfold and_then at 1.
  rewrite send_accept_new;
    [| simpl; rewrite Nat.eqb_refl; simpl; exact Ha | exact Hn].
  unfold pure at 1. unfold and_then, lift, modify, with_app, pure. simpl.
  split; [reflexivity|]. simpl. unfold log, set_connections. simpl.
  rewrite <- app_assoc, Nat.eqb_refl. repeat split.
  intros x Hx. apply Nat.eqb_neq in Hx. now rewrite Hx.
Qed.

Lemma send_accept_app (net : Net) (ws : WebSocket) (w w' : World)
    (o : Outcome unit) :
  send net ws websocket_accept w = (o, w') ->
  o <> Returns tt ->
  app w' = app w.
Proof.
  unfold send, _send, set_application_state.
  unfold and_then, the_socket, set_socket, throw, lift, modify, with_app.
  destruct (application_state (sockets w ws)); destruct (net ws); simpl;
    intros E H; injection E as <- <-; auto; congruence.
Qed.

(** When [accept] does not return, the store, the registry and the trace
    are as they were. *)
Lemma accept_not_returned (net : Net) (ws : WebSocket) (inbox : list Message)
    (w w' : World) (o : Outcome (list Message)) :
  accept net ws inbox w = (o, w') ->
  (forall rest, o <> Returns rest) ->
  app w' = app w.
Proof.
  unfold accept. unfold and_then at 1. unfold the_socket at 1.
  unfold and_then at 1.
  set (first := match client_state (sockets w ws) with
                | CONNECTING =>
                    and_then (receive ws inbox) (fun mr => pure (snd mr))
                | _ => pure inbox
                end).
  assert (Hf : app (snd (first w)) = app w).
  { subst first. destruct (client_state (sockets w ws)); try reflexivity.
    unfold and_then. pose proof (receive_effect ws inbox w) as He.
    cbv zeta in He. destruct (receive ws inbox w) as [[mr | e |] w1]; apply He. }
  destruct (first w) as [[r | e |] w1]; simpl in Hf;
    try (intros E _; injection E as _ <-; exact Hf).
  unfold and_then at 1.
  destruct (send net ws websocket_accept w1) as [[[] | e |] w2] eqn:Es;
    unfold pure; intros E Hno; injection E as <- <-.
  - now elim (Hno r).
  - rewrite <- Hf. apply (send_accept_app net ws w1 w2 _ Es). discriminate.
  - rewrite <- Hf. apply (send_accept_app net ws w1 w2 _ Es). discriminate.
Qed.

(** [connect] on a socket that is not [CONNECTING] does not return, and
    the store, the registry and the trace are as they were. *)
Lemma connect_accepted_socket (net : Net) (ws : WebSocket)
    (inbox : list Message) (w : World) :
  application_state (sockets w ws) <> CONNECTING ->
  (forall rest, fst (Service.connect net ws inbox w) <> Returns rest)
  /\ app (snd (Service.connect net ws inbox w)) = app w.
Proof.
  intros Ha. unfold Service.connect, and_then.
  destruct (accept net ws inbox w) as [[rest | e |] w1] eqn:E.
  - destruct (accept_returns net ws inbox rest w w1 E) as (A1 & _). contradiction.
  - split; [intros rest; discriminate|].
    apply (accept_not_returned net ws inbox w w1 _ E). intros; discriminate.
  - split; [intros rest; discriminate|].
    apply (accept_not_returned net ws inbox w w1 _ E). intros; discriminate.
Qed.

Lemma live_receive_loop_closed (net : Net) (ws : WebSocket)
    (inbox : list Message) (w : World) :
  application_state (sockets w ws) <> CONNECTED ->
  Service.receive_loop net ws inbox w = (Raises RuntimeError, w).
Proof.
  intros H.
  assert (Hr : forall l, receive_text ws l w = (Raises RuntimeError, w)).
  { intros l. unfold receive_text, and_then, the_socket.
    destruct (application_state (sockets w ws)); try reflexivity. congruence. }
  destruct inbox as [|m rest]; cbn [Service.receive_loop];
    unfold and_then; now rewrite Hr.
Qed.

(** The [except] branch in a healthy world. *)
Lemma live_on_disconnect (net : Net) (ws : WebSocket) (w : World) :
  Service.healthy w ->
  let regs := active_connections (app w) in
  let remaining := remove_first ws regs in
  exists w',
    Service.on_disconnect net ws w = (Returns tt, w')
    /\ app w'
       = mkState (tasks (app w)) (filter net remaining)
           (trace (app w)
            ++ (if Py.list_in ws regs then [Unregistered ws] else [])
            ++ pass_events net "A client disconnected" remaining)
    /\ (forall x, client_state (sockets w' x) = client_state (sockets w x))
    /\ Service.healthy w'.
Proof.
  intros H. cbv zeta.
  destruct (sound_disconnect ws w H) as [H1 _].
  unfold Service.on_disconnect, and_then.
  assert (Hd : exists w1,
             Service.disconnect ws w = (Returns tt, w1)
             /\ app w1
                = mkState (tasks (app w))
                    (remove_first ws (active_connections (app w)))
                    (trace (app w)
                     ++ (if Py.list_in ws (active_connections (app w))
                         then [Unregistered ws] else []))
             /\ sockets w1 = sockets w).
  { unfold Service.disconnect, lift, with_app.
    destruct (Py.list_in ws (active_connections (app w))) eqn:Hin.
    - apply list_in_In in Hin. rewrite (disconnect_present _ _ Hin).
      eexists. split; [reflexivity|]. simpl. auto.
    - apply list_in_false in Hin. rewrite (disconnect_absent _ _ Hin).
      eexists. split; [reflexivity|]. simpl.
      rewrite (remove_first_absent _ _ Hin), app_nil_r.
      split; [now destruct (app w) | reflexivity]. }
  destruct Hd as (w1 & E1 & Ea1 & Es1).
  rewrite E1 in H1. simpl in H1. rewrite E1.
  destruct (live_broadcast net "A client disconnected" w1 H1)
    as (w' & E & Ea & Es & Hh).
  exists w'. split; [exact E|]. split.
  - rewrite Ea, Ea1. simpl. now rewrite <- app_assoc.
  - split; [|exact Hh]. intros x. rewrite Es. unfold Service.closed.
    rewrite Es1. now destruct (Py.list_in x _).
Qed.


(** C5 (amended). When the receive of a handler ends with the disconnect
    message, [receive_text] raises [WebSocketDisconnect]: the handler takes
    its connection out of the registry, then broadcasts
    "A client disconnected" to the connections that remain, the connection
    itself not among them, and returns; what the inbox holds after that is
    not handled.  A receive that fails otherwise is not caught: on a frame
    without text the handler raises [KeyError], and at a [receive_text] on a
    socket that is not [CONNECTED] it raises [RuntimeError]; in both cases
    it leaves the registry as it is and broadcasts nothing. *)
Theorem disconnect_message_unregisters_then_notifies
    (net : Net) (ws : WebSocket) (later : list Message) (w : World) :
  Service.healthy w ->
  let regs := active_connections (app w) in
  let remaining := remove_first ws regs in
  (exists w',
     Service.resume net ws (websocket_disconnect :: later) w = (Returns tt, w')
     /\ tasks (app w') = tasks (app w)
     /\ ~ In ws remaining
     /\ trace (app w')
        = trace (app w)
          ++ (if Py.list_in ws regs then [Unregistered ws] else [])
          ++ map (attempt net "A client disconnected") remaining
          ++ map Unregistered (failing net remaining)
     /\ active_connections (app w') = filter net remaining
     /\ ~ In ws (active_connections (app w'))
     /\ client_state (sockets w' ws) = DISCONNECTED)
  /\ Service.resume net ws (websocket_receive_bytes :: later) w
     = (Raises KeyError, w)
  /\ (application_state (sockets w ws) <> CONNECTED ->
      try_except is_WebSocketDisconnect
        (Service.receive_loop net ws later) (Service.on_disconnect net ws) w
      = (Raises RuntimeError, w)).
Proof.
  intros H. cbv zeta. split; [|split].
  - set (w1 := mkWorld (app w)
                 (fun x => if Nat.eqb x ws
                           then mkSocket DISCONNECTED
                                  (application_state (sockets w ws))
                           else sockets w x)).
    assert (Hb : Service.resume net ws (websocket_disconnect :: later) w
                 = Service.on_disconnect net ws w1) by reflexivity.
    assert (H1 : Service.healthy w1).
    { apply (healthy_quiet w w1); [| reflexivity | exact H].
      intros x. simpl. destruct (Nat.eqb_spec x ws) as [-> | _]; reflexivity. }
    destruct (live_on_disconnect net ws w1 H1) as (w' & E & Ea & Ec & Hh).
    simpl in Ea.
    assert (Hout : ~ In ws (remove_first ws (active_connections (app w)))).
    { apply NoDup_remove_first. apply H. }
    exists w'. rewrite Hb. split; [exact E|]. rewrite Ea. simpl.
    repeat split; auto.
    + intros F. apply filter_In in F. tauto.
    + rewrite Ec. simpl. now rewrite Nat.eqb_refl.
  - reflexivity.
  - intros Hc. unfold try_except.
    now rewrite (live_receive_loop_closed net ws later w Hc).
Qed.

Lemma connect_twice (net : Net) (ws : WebSocket) (inbox : list Message)
    (w : World) :
  sockets w ws = mkSocket CONNECTED CONNECTED ->
  Service.connect net ws inbox w = (Raises RuntimeError, w).
Proof.
  intros Hs. unfold Service.connect, accept, send.
  unfold and_then, the_socket, pure. rewrite Hs. cbn. rewrite Hs. reflexivity.
Qed.

(** C10 (amended). The registry is a list.  [connect] appends at the end
    without looking at what the registry holds, but only once [accept] has
    returned, and [accept] raises on a socket that has been accepted: a
    handle connected twice is in the registry once, the second [connect]
    raising [RuntimeError].  [disconnect] removes one entry at most, so a
    handle that a registry holds twice is still a member after one
    [disconnect].  [broadcast] sends in the order of the list, which is the
    order of registration. *)
Theorem registry_is_a_list_of_accepted_sockets
    (net : Net) (msg : string) (ws : WebSocket) (inbox : list Message)
    (w : World) :
  let regs := active_connections (app w) in
  (forall rest w1,
      accept net ws inbox w = (Returns rest, w1) ->
      exists w',
        Service.connect net ws inbox w = (Returns rest, w')
        /\ active_connections (app w') = regs ++ [ws])
  /\ (application_state (sockets w ws) <> CONNECTING ->
      (forall rest, fst (Service.connect net ws inbox w) <> Returns rest)
      /\ app (snd (Service.connect net ws inbox w)) = app w)
  /\ (sockets w ws = new_socket -> net ws = true ->
      exists w1 w2,
        Service.connect net ws (websocket_connect :: inbox) w = (Returns inbox, w1)
        /\ Service.connect net ws inbox w1 = (Raises RuntimeError, w2)
        /\ active_connections (app w2) = regs ++ [ws])
  /\ (forall c,
        count_occ Nat.eq_dec
          (active_connections (app (snd (Service.disconnect ws w)))) c
        = if Nat.eq_dec ws c
          then pred (count_occ Nat.eq_dec regs c)
          else count_occ Nat.eq_dec regs c)
  /\ (2 <= count_occ Nat.eq_dec regs ws ->
      In ws (active_connections (app (snd (Service.disconnect ws w)))))
  /\ (Service.healthy w ->
      exists w',
        Service.broadcast net msg w = (Returns tt, w')
        /\ trace (app w')
           = trace (app w) ++ map (attempt net msg) regs
             ++ map Unregistered (failing net regs)).
Proof.
  cbv zeta.
  assert (Hcount : forall c,
             count_occ Nat.eq_dec
               (active_connections (app (snd (Service.disconnect ws w)))) c
             = if Nat.eq_dec ws c
               then pred (count_occ Nat.eq_dec (active_connections (app w)) c)
               else count_occ Nat.eq_dec (active_connections (app w)) c).
  { intros c. unfold Service.disconnect, lift, with_app.
    destruct (in_dec Nat.eq_dec ws (active_connections (app w))) as [H | H].
    - rewrite (disconnect_present _ _ H). simpl. apply count_occ_remove_first.
    - rewrite (disconnect_absent _ _ H). simpl.
      destruct (Nat.eq_dec ws c) as [<- | _]; [|reflexivity].
      apply (count_occ_not_In Nat.eq_dec) in H. now rewrite H. }
  split; [|split; [|split; [|split; [|split]]]].
  - intros rest w1 E.
    destruct (accept_returns net ws inbox rest w w1 E) as (_ & _ & _ & A4).
    eexists. unfold Service.connect, and_then. rewrite E.
    unfold lift, modify, with_app, pure. simpl. split; [reflexivity|].
    simpl. now rewrite A4.
  - apply connect_accepted_socket.
  - intros Hs Hn.
    destruct (connect_new_socket net ws inbox w Hs Hn) as (w1 & E1 & Ea & Es & _).
    exists w1, w1. split; [exact E1|]. split.
    + now apply connect_twice.
    + now rewrite Ea.
  - exact Hcount.
  - intros H2. apply (count_occ_In Nat.eq_dec). rewrite Hcount.
    destruct (Nat.eq_dec ws ws); [unfold WebSocket in *; lia | congruence].
  - intros H. destruct (live_broadcast net msg w H) as (w' & E & Ea & _).
    exists w'. split; [exact E|]. now rewrite Ea.
Qed.

(** X4. On a socket as its creation leaves it, in a healthy world and with
    the channel up, [connect] followed by [disconnect] leaves the store and
    the registry as they were; the socket stays accepted, so that a later
    [connect] of it raises [RuntimeError] and registers nothing. *)
Theorem connect_then_disconnect_of_a_new_socket
    (net : Net) (ws : WebSocket) (rest later : list Message) (w : World) :
  Service.healthy w ->
  sockets w ws = new_socket ->
  net ws = true ->
  exists w1 w2,
    Service.connect net ws (websocket_connect :: rest) w = (Returns rest, w1)
    /\ Service.disconnect ws w1 = (Returns tt, w2)
    /\ tasks (app w2) = tasks (app w)
    /\ active_connections (app w2) = active_connections (app w)
    /\ Service.connect net ws later w2 = (Raises RuntimeError, w2).
Proof.
  intros H Hs Hn.
  destruct (connect_new_socket net ws rest w Hs Hn) as (w1 & E1 & Ea & Es & Eo).
  assert (Hout : ~ In ws (active_connections (app w))).
  { intros F. destruct H as [_ Hc]. specialize (Hc ws F).
    rewrite Hs in Hc. discriminate. }
  exists w1. eexists. split; [exact E1|].
  unfold Service.disconnect, lift, with_app.
  rewrite disconnect_present
    by (rewrite Ea; simpl; apply in_or_app; right; simpl; auto).
  split; [reflexivity|]. rewrite Ea. simpl. split; [reflexivity|]. split.
  - now apply remove_first_app_absent.
  - apply connect_twice. simpl. exact Es.
Qed.

(** X11. A handler whose own send fails stops at its next receive: when the
    broadcast made for its "add_task:" frame fails on its own channel, the
    task is stored and sent to the others, the connection is removed from
    the registry and its socket is [DISCONNECTED], so the next
    [receive_text] raises [RuntimeError]; what the inbox holds after the
    frame is never handled and no "A client disconnected" is broadcast. *)
Theorem handler_stops_after_its_own_send_fails
    (net : Net) (ws : WebSocket) (rest : string) (later : list Message)
    (w : World) :
  Service.healthy w ->
  In ws (active_connections (app w)) ->
  net ws = false ->
  Py.strip rest <> "" ->
  let regs := active_connections (app w) in
  let task : Task := [("id", Py.str_of_int (List.length (tasks (app w))));
                      ("content", Py.strip rest)] in
  exists w',
    Service.resume net ws
      (websocket_receive_text ("add_task:" ++ rest) :: later) w
    = (Raises RuntimeError, w')
    /\ tasks (app w') = tasks (app w) ++ [task]
    /\ active_connections (app w') = filter net regs
    /\ ~ In ws (active_connections (app w'))
    /\ trace (app w')
       = trace (app w) ++ [Stored task]
         ++ map (attempt net ("new_task:" ++ Py.repr_dict task)) regs
         ++ map Unregistered (failing net regs).
Proof.
  intros H Hin Hdown Hs. cbv zeta.
  set (task := [("id", Py.str_of_int (List.length (tasks (app w))));
                ("content", Py.strip rest)]).
  set (w1 := mkWorld (log (Stored task) (set_tasks (tasks (app w) ++ [task]) (app w)))
               (sockets w)).
  assert (H1 : Service.healthy w1).
  { apply (healthy_quiet w w1); [| | exact H]; reflexivity. }
  destruct (live_broadcast net ("new_task:" ++ Py.repr_dict task) w1 H1)
    as (w' & E & Ea & Es & Hh).
  assert (Hot : Service.on_text net ("add_task:" ++ rest) w = (Returns tt, w')).
  { unfold Service.on_text.
    rewrite startswith_app, slice_from_app, (proj2 (truthy_true _) Hs).
    unfold and_then, lift, gets, tasks_append, modify, with_app. simpl.
    exact E. }
  assert (Hclosed : application_state (sockets w' ws) <> CONNECTED).
  { rewrite Es. unfold Service.closed.
    assert (Hf : Py.list_in ws (failing net (active_connections (app w1))) = true)
      by (apply list_in_failing; auto).
    rewrite Hf. simpl. discriminate. }
  exists w'. split.
  - unfold Service.resume, try_except.
    unfold and_then at 1. unfold receive_text_resumed, _receive.
    unfold and_then at 1. unfold pure at 1. cbn [fst snd].
    unfold pure at 1. unfold and_then at 1. cbn [fst].
    rewrite Hot.
    now rewrite (live_receive_loop_closed net ws later w' Hclosed).
  - rewrite Ea. simpl. repeat split.
    + intros F. apply filter_In in F. destruct F. congruence.
    + unfold pass_events. now rewrite <- !app_assoc.
Qed.

(** ** The two embeddings of the handlers

    In a healthy world the handlers over the Starlette calls return what
    the handlers of the first embedding return, with the same store,
    registry and trace. *)

Lemma closed_up (net : Net) (l : list WebSocket) (w : World) (x : WebSocket) :
  net x = true -> Service.closed (failing net l) w x = sockets w x.
Proof.
  intros Hn. unfold Service.closed.
  destruct (Py.list_in x (failing net l)) eqn:E; [|reflexivity].
  apply list_in_failing in E. destruct E as [_ E]. congruence.
Qed.

Lemma broadcast_agrees (net : Net) (msg : string) (w : World) :
  Service.healthy w ->
  exists w',
    Service.broadcast net msg w = (Returns tt, w')
    /\ broadcast net msg (app w) = (Return tt, app w')
    /\ (forall x, net x = true -> sockets w' x = sockets w x)
    /\ Service.healthy w'.
Proof.
  intros H. destruct (live_broadcast net msg w H) as (w' & E & Ea & Es & Hh).
  exists w'. split; [exact E|]. split; [|split; [|exact Hh]].
  - now rewrite broadcast_run, Ea.
  - intros x Hx. rewrite Es. now apply closed_up.
Qed.

Lemma on_text_agrees (net : Net) (data : string) (w : World) :
  Service.healthy w ->
  exists w',
    Service.on_text net data w = (Returns tt, w')
    /\ on_text net data (app w) = (Return tt, app w')
    /\ (forall x, net x = true -> sockets w' x = sockets w x)
    /\ Service.healthy w'.
Proof.
  intros H. unfold Service.on_text, on_text.
  destruct (Py.startswith data "add_task:").
  - cbv zeta. destruct (Py.truthy _).
    + unfold and_then at 1. unfold lift at 1. unfold gets at 1.
      cbn [fst snd]. unfold and_then at 1. unfold lift at 1.
      unfold bind at 1. unfold gets at 1. unfold bind at 1.
      unfold tasks_append, modify, with_app. cbn [fst snd].
      set (task := [("id", _); ("content", _)]).
      set (w0 := mkWorld (app w) (sockets w)).
      set (w1 := mkWorld _ (sockets w0)).
      assert (H1 : Service.healthy w1).
      { apply (healthy_quiet w w1); [| | exact H]; reflexivity. }
      destruct (broadcast_agrees net ("new_task:" ++ Py.repr_dict task) w1 H1)
        as (w' & E & Eo & Es & Hh).
      exists w'. split; [exact E|]. split; [exact Eo|]. split; [|exact Hh].
      intros x Hx. now rewrite (Es x Hx).
    + exists w. unfold pure, ret. split; [reflexivity|]. split; [reflexivity|].
      split; [reflexivity | exact H].
  - apply broadcast_agrees, H.
Qed.

Lemma receive_text_text (ws : WebSocket) (data : string) (rest : list Message)
    (w : World) :
  sockets w ws = mkSocket CONNECTED CONNECTED ->
  receive_text ws (websocket_receive_text data :: rest) w
  = (Returns (data, rest), w).
Proof.
  intros Hs. unfold receive_text, receive, and_then, the_socket, _receive, pure.
  rewrite Hs. cbn. rewrite Hs. reflexivity.
Qed.

Lemma receive_text_disconnect (ws : WebSocket) (rest : list Message) (w : World) :
  sockets w ws = mkSocket CONNECTED CONNECTED ->
  receive_text ws (websocket_disconnect :: rest) w
  = (Raises (Exn WebSocketDisconnect),
     mkWorld (app w)
       (fun x => if Nat.eqb x ws then mkSocket DISCONNECTED CONNECTED
                 else sockets w x)).
Proof.
  intros Hs.
  unfold receive_text, receive, and_then, the_socket, _receive, pure,
    set_client_state, set_socket, and_then, the_socket, throw.
  repeat (rewrite Hs; cbn). reflexivity.
Qed.

Lemma receive_text_resumed_connected (ws : WebSocket) (r : Received)
    (rest : list Message) (w : World) :
  sockets w ws = mkSocket CONNECTED CONNECTED ->
  receive_text_resumed ws (message_of r :: rest) w
  = receive_text ws (message_of r :: rest) w.
Proof.
  intros Hs. destruct r as [data|]; cbn [message_of].
  - now rewrite receive_text_text.
  - rewrite receive_text_disconnect by exact Hs.
    unfold receive_text_resumed, and_then, _receive, pure,
      set_client_state, set_socket, and_then, the_socket, throw.
    cbn. repeat (rewrite Hs; cbn). reflexivity.
Qed.

Lemma receive_loop_agrees (net : Net) (ws : WebSocket) (inbox : list Received)
    (w : World) :
  Service.healthy w ->
  sockets w ws = mkSocket CONNECTED CONNECTED ->
  net ws = true ->
  exists s w',
    try_except is_WebSocketDisconnect
      (Service.receive_loop net ws (map message_of inbox))
      (Service.on_disconnect net ws) w
    = (match s with Receiving => Awaits | Closed => Returns tt end, w')
    /\ resume net ws inbox (app w) = (Return s, app w').
Proof.
  intros H Hs Hn. revert w H Hs.
  induction inbox as [|r inbox IH]; intros w H Hs.
  - exists Receiving, w. split; [|reflexivity].
    cbn [map Service.receive_loop].
    unfold try_except, and_then, receive_text, receive, and_then, the_socket,
      _receive, suspend.
    repeat (rewrite Hs; cbn). reflexivity.
  - destruct r as [data|].
    + destruct (on_text_agrees net data w H) as (w1 & E & Eo & Es & H1).
      destruct (IH w1 H1) as (s & w' & El & Er).
      { rewrite (Es ws Hn). exact Hs. }
      exists s, w'. split.
      * cbn [map Service.receive_loop message_of].
        unfold try_except. unfold and_then at 1.
        rewrite (receive_text_text ws data _ w Hs). cbn [fst].
        unfold and_then at 1. rewrite E.
        unfold try_except in El. exact El.
      * rewrite resume_text, Eo. exact Er.
    + set (w2 := mkWorld (app w)
                   (fun x => if Nat.eqb x ws then mkSocket DISCONNECTED CONNECTED
                             else sockets w x)).
      assert (H2 : Service.healthy w2).
      { apply (healthy_quiet w w2); [| reflexivity | exact H].
        intros x. simpl. destruct (Nat.eqb_spec x ws) as [-> | _];
          [now rewrite Hs | reflexivity]. }
      destruct (live_on_disconnect net ws w2 H2) as (w' & E & Ea & _).
      exists Closed, w'. split.
      * cbn [map Service.receive_loop message_of].
        unfold try_except. unfold and_then at 1.
        rewrite (receive_text_disconnect ws _ w Hs). cbn. exact E.
      * rewrite resume_disconnect, on_disconnect_run. cbv zeta.
        now rewrite Ea.
Qed.

(** X17. In a world whose registry is healthy, [broadcast], POST /tasks and
    the body of the handler's loop return over the Starlette calls what
    they return in the first embedding, and leave the same store, registry
    and trace. *)
Theorem handlers_agree_on_healthy_worlds
    (net : Net) (msg data : string) (task : Task) (w : World) :
  Service.healthy w ->
  (exists w',
     Service.broadcast net msg w = (Returns tt, w')
     /\ broadcast net msg (app w) = (Return tt, app w'))
  /\ (exists w',
        Service.add_task net task w = (Returns [("status", "task_added")], w')
        /\ add_task net task (app w)
           = (Return [("status", "task_added")], app w'))
  /\ (exists w',
        Service.on_text net data w = (Returns tt, w')
        /\ on_text net data (app w) = (Return tt, app w')).
Proof.
  intros H. split; [|split].
  - destruct (broadcast_agrees net msg w H) as (w' & E & Eo & _).
    now exists w'.
  - unfold Service.add_task, add_task.
    unfold and_then at 1. unfold lift at 1. unfold bind at 1.
    unfold tasks_append, modify, with_app. cbn [fst snd].
    set (w1 := mkWorld _ (sockets w)).
    assert (H1 : Service.healthy w1).
    { apply (healthy_quiet w w1); [| | exact H]; reflexivity. }
    destruct (broadcast_agrees net ("new_task:" ++ Py.repr_dict task) w1 H1)
      as (w' & E & Eo & _).
    exists w'. unfold and_then, bind, pure, ret.
    rewrite E. subst w1. cbn [app] in Eo. rewrite Eo. now split.
  - destruct (on_text_agrees net data w H) as (w' & E & Eo & _).
    now exists w'.
Qed.

(** X18. A handler whose own channel is up, on an inbox of texts and
    disconnects: over the Starlette calls it stands where it stands in the
    first embedding (suspended in [receive_text], or returned after the
    disconnect), with the same store, registry and trace; from a suspended
    receive on a connected socket, and from the start on a new socket. *)
Theorem handler_agrees_while_its_channel_is_up
    (net : Net) (ws : WebSocket) (inbox : list Received) (w : World) :
  Service.healthy w ->
  net ws = true ->
  (sockets w ws = mkSocket CONNECTED CONNECTED ->
   exists s w',
     Service.resume net ws (map message_of inbox) w
     = (match s with Receiving => Awaits | Closed => Returns tt end, w')
     /\ resume net ws inbox (app w) = (Return s, app w'))
  /\ (sockets w ws = new_socket ->
      exists s w',
        Service.websocket_endpoint net ws
          (websocket_connect :: map message_of inbox) w
        = (match s with Receiving => Awaits | Closed => Returns tt end, w')
        /\ websocket_endpoint net ws inbox (app w) = (Return s, app w')).
Proof.
  intros H Hn. split; intros Hs.
  - destruct (receive_loop_agrees net ws inbox w H Hs Hn) as (s & w' & E & Eo).
    exists s, w'. split; [|exact Eo].
    destruct inbox as [|r inbox].
    { rewrite <- E. cbn [map Service.receive_loop].
      unfold Service.resume, try_except, and_then, receive_text, receive,
        and_then, the_socket, _receive, suspend.
      repeat (rewrite Hs; cbn). reflexivity. }
    rewrite <- E. cbn [map Service.receive_loop].
    unfold Service.resume, try_except. unfold and_then at 1 3.
    now rewrite (receive_text_resumed_connected ws r _ w Hs).
  - destruct (connect_new_socket net ws (map message_of inbox) w Hs Hn)
      as (w1 & E & Ea & Es & _).
    assert (H1 : Service.healthy w1).
    { pose proof (sound_connect net ws (websocket_connect :: map message_of inbox)
                    w H) as [Hh _].
      now rewrite E in Hh. }
    destruct (receive_loop_agrees net ws inbox w1 H1 Es Hn) as (s & w' & El & Eo).
    exists s, w'. split.
    + unfold Service.websocket_endpoint. unfold and_then at 1.
      rewrite E. exact El.
    + rewrite websocket_endpoint_steps. unfold exec, dispatch.
      rewrite connect_run. cbn [snd]. rewrite <- Ea. exact Eo.
Qed.

(** X2. Whatever calls the server has handled since its start, its
    registry holds no socket twice and only sockets that are [CONNECTED];
    so a pass of [broadcast] returns and reaches every registered
    connection, and POST /tasks returns its response. *)
Theorem server_stays_healthy
    (calls : list (Net * Service.Call)) (net : Net) (msg : string) (task : Task) :
  let w := Service.run calls Service.boot in
  Service.healthy w
  /\ (exists w',
        Service.broadcast net msg w = (Returns tt, w')
        /\ trace (app w')
           = trace (app w) ++ map (attempt net msg) (active_connections (app w))
             ++ map Unregistered (failing net (active_connections (app w))))
  /\ fst (Service.add_task net task w) = Returns [("status", "task_added")].
Proof.
  cbv zeta.
  destruct (sound_run calls Service.boot healthy_boot) as [H _].
  split; [exact H|]. split.
  - destruct (live_broadcast net msg _ H) as (w' & E & Ea & _).
    exists w'. split; [exact E|]. now rewrite Ea.
  - unfold Service.add_task. unfold and_then at 1.
    unfold lift, tasks_append, modify, with_app. cbn [fst snd].
    set (w1 := mkWorld _ _).
    assert (H1 : Service.healthy w1).
    { apply (healthy_quiet (Service.run calls Service.boot) w1);
        [| | exact H]; reflexivity. }
    destruct (live_broadcast net ("new_task:" ++ Py.repr_dict task) w1 H1)
      as (w' & E & _).
    unfold and_then. now rewrite E.
Qed.

(** ** The claims that fail as stated, at concrete inputs *)


(** A client connects and sends a frame of bytes: [receive_text] raises
    [KeyError], the handler raises it too, its connection stays in the
    registry and nothing is broadcast. *)
Lemma handler_raises_on_a_frame_without_text :
  fst (Service.websocket_endpoint all_up 1
         [websocket_connect; websocket_receive_bytes] Service.boot)
  = Raises KeyError
  /\ app (snd (Service.websocket_endpoint all_up 1
                 [websocket_connect; websocket_receive_bytes] Service.boot))
     = mkState [] [1] [Accepted 1; Registered 1].
Proof. repeat split. Qed.

(** The same handle connected twice: the second [connect] raises
    [RuntimeError] in [accept] and the registry holds the handle once. *)
Lemma connecting_a_handle_twice_registers_it_once :
  fst (and_then (Service.connect all_up 1 [websocket_connect])
         (fun rest => Service.connect all_up 1 rest) Service.boot)
  = Raises RuntimeError
  /\ active_connections
       (app (snd (and_then (Service.connect all_up 1 [websocket_connect])
                    (fun rest => Service.connect all_up 1 rest) Service.boot)))
     = [1].
Proof. repeat split. Qed.

(** ** The amended claims at concrete inputs *)


Lemma disconnect_message_unregisters_then_notifies_witness :
  Service.healthy
    (mkWorld (mkState [] [1; 2] []) (fun _ => mkSocket CONNECTED CONNECTED))
  /\ exists w',
       Service.resume all_up 1
         [websocket_disconnect; websocket_receive_text "late"]
         (mkWorld (mkState [] [1; 2] []) (fun _ => mkSocket CONNECTED CONNECTED))
       = (Returns tt, w')
       /\ ~ In 1 (active_connections (app w')).
Proof.
  assert (H : Service.healthy
                (mkWorld (mkState [] [1; 2] [])
                   (fun _ => mkSocket CONNECTED CONNECTED))).
  { split; simpl; [|intros c _; reflexivity].
    repeat constructor; simpl; lia. }
  split; [exact H|].
  destruct (disconnect_message_unregisters_then_notifies all_up 1
              [websocket_receive_text "late"] _ H)
    as ((w' & E & _ & _ & _ & _ & N & _) & _).
  exists w'. auto.
Defined.

Lemma connect_then_disconnect_of_a_new_socket_witness :
  Service.healthy Service.boot
  /\ sockets Service.boot 1 = new_socket
  /\ all_up 1 = true
  /\ exists w1 w2,
       Service.connect all_up 1 [websocket_connect] Service.boot = (Returns [], w1)
       /\ Service.disconnect 1 w1 = (Returns tt, w2)
       /\ active_connections (app w2) = [].
Proof.
  assert (H : Service.healthy Service.boot)
    by (split; simpl; [constructor | intros c []]).
  assert (Hs : sockets Service.boot 1 = new_socket) by reflexivity.
  assert (Hn : all_up 1 = true) by reflexivity.
  split; [exact H|]. split; [exact Hs|]. split; [exact Hn|].
  destruct (connect_then_disconnect_of_a_new_socket all_up 1 [] [] Service.boot
              H Hs Hn) as (w1 & w2 & E1 & E2 & _ & R & _).
  exists w1, w2. auto.
Defined.

Lemma handler_stops_after_its_own_send_fails_witness :
  Service.healthy
    (mkWorld (mkState [] [1; 2] []) (fun _ => mkSocket CONNECTED CONNECTED))
  /\ In 1 [1; 2] /\ down [1] 1 = false /\ Py.strip " a" <> ""
  /\ exists w',
       Service.resume (down [1]) 1
         [websocket_receive_text "add_task: a"; websocket_receive_text "add_task: b"]
         (mkWorld (mkState [] [1; 2] []) (fun _ => mkSocket CONNECTED CONNECTED))
       = (Raises RuntimeError, w')
       /\ tasks (app w') = [[("id", "0"); ("content", "a")]]
       /\ active_connections (app w') = [2].
Proof.
  assert (H : Service.healthy
                (mkWorld (mkState [] [1; 2] [])
                   (fun _ => mkSocket CONNECTED CONNECTED))).
  { split; simpl; [|intros c _; reflexivity].
    repeat constructor; simpl; lia. }
  assert (Hin : In 1 (active_connections
                        (app (mkWorld (mkState [] [1; 2] [])
                                (fun _ => mkSocket CONNECTED CONNECTED)))))
    by (simpl; auto).
  assert (Hd : down [1] 1 = false) by reflexivity.
  assert (Hs : Py.strip " a" <> "") by (vm_compute; discriminate).
  split; [exact H|]. split; [exact Hin|]. split; [exact Hd|]. split; [exact Hs|].
  destruct (handler_stops_after_its_own_send_fails (down [1]) 1 " a"
              [websocket_receive_text "add_task: b"] _ H Hin Hd Hs)
    as (w' & E & T & R & _).
  exists w'. auto.
Defined.

Lemma handlers_agree_on_healthy_worlds_witness :
  Service.healthy
    (mkWorld (mkState [] [1; 2] []) (fun _ => mkSocket CONNECTED CONNECTED))
  /\ exists w',
       Service.broadcast (down [2]) "m"
         (mkWorld (mkState [] [1; 2] []) (fun _ => mkSocket CONNECTED CONNECTED))
       = (Returns tt, w')
       /\ broadcast (down [2]) "m" (mkState [] [1; 2] []) = (Return tt, app w').
Proof.
  assert (H : Service.healthy
                (mkWorld (mkState [] [1; 2] [])
                   (fun _ => mkSocket CONNECTED CONNECTED))).
  { split; simpl; [|intros c _; reflexivity].
    repeat constructor; simpl; lia. }
  split; [exact H|].
  destruct (handlers_agree_on_healthy_worlds (down [2]) "m" "" [] _ H)
    as ((w' & E & Eo) & _).
  exists w'. auto.
Defined.

Lemma handler_agrees_while_its_channel_is_up_witness :
  Service.healthy Service.boot
  /\ all_up 1 = true
  /\ sockets Service.boot 1 = new_socket
  /\ exists s w',
       Service.websocket_endpoint all_up 1
         (websocket_connect :: map message_of [Text "add_task: a"; Disconnect])
         Service.boot
       = (match s with Receiving => Awaits | Closed => Returns tt end, w')
       /\ websocket_endpoint all_up 1 [Text "add_task: a"; Disconnect] initial
          = (Return s, app w').
Proof.
  assert (H : Service.healthy Service.boot)
    by (split; simpl; [constructor | intros c []]).
  assert (Hn : all_up 1 = true) by reflexivity.
  assert (Hs : sockets Service.boot 1 = new_socket) by reflexivity.
  split; [exact H|]. split; [exact Hn|]. split; [exact Hs|].
  destruct (handler_agrees_while_its_channel_is_up all_up 1
              [Text "add_task: a"; Disconnect] Service.boot H Hn)
    as [_ He].
  exact (He Hs).
Defined.
